(** * Geodesic distance from a plane: a model of [src/main.cpp]

    The program loads a manifold triangle mesh, finds the mesh edges
    crossed by a cutting plane, hands the crossing points to
    geometry-central's exact geodesic solver, stores the per-vertex
    distances and can export them as text.

    - [Fmt]       : decimal output of [size_t] and [double] on a C++ stream
    - [GC]        : the geometry-central data the program touches
    - [Main]      : [computeGeodesics] and [exportGeodesicDistances]
    - [Reader]    : a reader of the exported text format
    - [Format]    : the layout of the exported file, line by line
    - [Scenario]  : small meshes and program states
    - [Gui]       : the control panel callback and [main]
    - [Observe]   : predicates on the program state
    - [Cases]     : more program states, frames and library stand-ins

    A C++ [double] is a primitive binary64 [float]: arithmetic and
    comparisons are those of IEEE 754, with a single NaN.  The solver
    itself belongs to geometry-central; [Main] takes it as a
    parameter. *)

From Stdlib Require Import Floats ZArith NArith QArith Qabs.
From Stdlib Require Import List Sorted String Ascii Bool Lia.
Import ListNotations.

Set Warnings "-inexact-float".

Close Scope Q_scope.
Local Open Scope string_scope.
Local Open Scope list_scope.

(** ** Decimal output *)

Module Fmt.

Definition digitChar (d : N) : ascii := ascii_of_N (48 + d).

(** The [k] low-order decimal digits of [n], most significant first,
    in front of [acc]. *)
Fixpoint lowDigits (k : nat) (n : N) (acc : string) : string :=
  match k with
  | O => acc
  | S k' => lowDigits k' (n / 10) (String (digitChar (n mod 10)) acc)
  end.

Fixpoint stripZeros (s : string) : string :=
  match s with
  | String c r =>
      match r with
      | EmptyString => s
      | String _ _ => if Ascii.eqb c "0" then stripZeros r else s
      end
  | EmptyString => s
  end.

(** [operator<<(size_t)] and [std::to_string(size_t)]. *)
Definition decimal (n : N) : string :=
  stripZeros (lowDigits (S (N.to_nat (N.size n))) n "").

Fixpoint zeros (k : nat) : string :=
  match k with
  | O => ""
  | S k' => String "0" (zeros k')
  end.

Fixpoint dropTrailingZeros (s : string) : string :=
  match s with
  | EmptyString => ""
  | String c r =>
      match dropTrailingZeros r with
      | EmptyString => if Ascii.eqb c "0" then "" else String c ""
      | r' => String c r'
      end
  end.

(** Nearest integer to [num / den], ties to even, as [printf] rounds
    under the default rounding mode. *)
Definition roundHalfEven (num den : N) : N :=
  let q := (num / den)%N in
  let r := (num mod den)%N in
  match (2 * r ?= den)%N with
  | Lt => q
  | Gt => (q + 1)%N
  | Eq => if N.even q then q else (q + 1)%N
  end.

(** [m * 2^e * 10^k] as a fraction of naturals. *)
Definition scaledNum (m : positive) (e k : Z) : N :=
  (Npos m * 2 ^ Z.to_N e * 10 ^ Z.to_N k)%N.
Definition scaledDen (e k : Z) : N :=
  (2 ^ Z.to_N (- e) * 10 ^ Z.to_N (- k))%N.

Definition signText (s : bool) : string := if s then "-" else "".

(** Style [%.<prec>f] of a magnitude already scaled by [10^prec]. *)
Definition fixedDigits (prec : nat) (scaled : N) : string :=
  let p := (10 ^ N.of_nat prec)%N in
  decimal (scaled / p) ++
  match prec with
  | O => ""
  | S _ => String "." (lowDigits prec (scaled mod p) "")
  end.

Definition fmtFixed (prec : nat) (x : float) : string :=
  match Prim2SF x with
  | S754_nan => "nan"
  | S754_infinity s => signText s ++ "inf"
  | S754_zero s => signText s ++ fixedDigits prec 0
  | S754_finite s m e =>
      let k := Z.of_nat prec in
      signText s ++
      fixedDigits prec (roundHalfEven (scaledNum m e k) (scaledDen e k))
  end.

Definition ndigits (n : N) : nat := String.length (decimal n).

(** [floor (log10 (num / den))] for a positive fraction. *)
Definition floorLog10 (num den : N) : Z :=
  if (den <=? num)%N then (Z.of_nat (ndigits (num / den)) - 1)%Z
  else
    let d := (ndigits den - ndigits num)%nat in
    if (den <=? num * 10 ^ N.of_nat d)%N then (- Z.of_nat d)%Z
    else (- Z.of_nat (S d))%Z.

Definition withFraction (ip fp : string) : string :=
  match dropTrailingZeros fp with
  | EmptyString => ip
  | fp' => ip ++ String "." fp'
  end.

Definition exponentText (X : Z) : string :=
  (if (X <? 0)%Z then "e-" else "e+") ++
  (if (Z.abs X <? 10)%Z then "0" else "") ++ decimal (Z.to_N (Z.abs X)).

(** Style [%.<prec>g] of the positive magnitude [m * 2^e]. *)
Definition generalDigits (prec : nat) (m : positive) (e : Z) : string :=
  let P := Nat.max prec 1 in
  let e0 := floorLog10 (scaledNum m e 0) (scaledDen e 0) in
  let k := (Z.of_nat P - 1 - e0)%Z in
  let N0 := roundHalfEven (scaledNum m e k) (scaledDen e k) in
  let carry := (N0 =? 10 ^ N.of_nat P)%N in
  let X := if carry then (e0 + 1)%Z else e0 in
  let N1 := if carry then (10 ^ N.of_nat (P - 1))%N else N0 in
  let ds := lowDigits P N1 "" in
  if ((-4 <=? X) && (X <? Z.of_nat P))%Z then
    if (0 <=? X)%Z then
      let i := S (Z.to_nat X) in
      withFraction (substring 0 i ds) (substring i (P - i) ds)
    else
      withFraction "0" (zeros (Z.to_nat (- X - 1)) ++ ds)
  else
    withFraction (substring 0 1 ds) (substring 1 (P - 1) ds) ++ exponentText X.

Definition fmtGeneral (prec : nat) (x : float) : string :=
  match Prim2SF x with
  | S754_nan => "nan"
  | S754_infinity s => signText s ++ "inf"
  | S754_zero s => signText s ++ "0"
  | S754_finite s m e => signText s ++ generalDigits prec m e
  end.

End Fmt.

(** ** geometry-central data *)

Module GC.

Record Vector3 := mkVector3 { x : float; y : float; z : float }.

Definition dot (u v : Vector3) : float :=
  (x u * x v + y u * y v + z u * z v)%float.

Definition Vertex := nat.
Definition Edge := nat.
Definition Face := nat.

(** Elements are dense indices.  Edge [e] is the [e]-th entry of
    [edgeEndpoints]: the pair [(e.halfedge().vertex(),
    e.halfedge().twin().vertex())]. *)
Record ManifoldSurfaceMesh := mkMesh {
  nVertices : nat;
  faceVertices : list (Vertex * Vertex * Vertex);
  edgeEndpoints : list (Vertex * Vertex)
}.

Definition nEdges (m : ManifoldSurfaceMesh) : nat := List.length (edgeEndpoints m).
Definition vertices (m : ManifoldSurfaceMesh) : list Vertex := seq 0 (nVertices m).
Definition edges (m : ManifoldSurfaceMesh) : list Edge := seq 0 (nEdges m).

Definition tailVertex (m : ManifoldSurfaceMesh) (e : Edge) : Vertex :=
  fst (nth e (edgeEndpoints m) (0, 0)).
Definition tipVertex (m : ManifoldSurfaceMesh) (e : Edge) : Vertex :=
  snd (nth e (edgeEndpoints m) (0, 0)).

(** [VertexData<T>] and [EdgeData<T>]: one value per element; a
    default-constructed container has size 0. *)
Definition VertexData (A : Type) := list A.
Definition EdgeData (A : Type) := list A.

Definition zero3 : Vector3 := mkVector3 0 0 0.

Record VertexPositionGeometry := mkGeometry {
  inputVertexPositions : VertexData Vector3
}.

Definition position (g : VertexPositionGeometry) (v : Vertex) : Vector3 :=
  nth v (inputVertexPositions g) zero3.

Fixpoint setAt {A : Type} (i : nat) (a : A) (l : list A) : list A :=
  match l, i with
  | [], _ => []
  | _ :: r, O => a :: r
  | b :: r, S i' => b :: setAt i' a r
  end.

(** A location on the surface: a vertex, a point of an edge at
    parameter [t] from its tail, or a point of a face. *)
Inductive SurfacePoint :=
| VertexPoint (v : Vertex)
| EdgePoint (e : Edge) (tEdge : float)
| FacePoint (f : Face) (faceCoords : Vector3).

End GC.

(** ** The program *)

Module Main.
Import GC Fmt.

Definition newline : string := String (ascii_of_nat 10) "".

(** *** Output streams *)

(** A [std::ofstream]: the characters sent so far and the two pieces
    of format state that [operator<<(double)] reads.  A new stream has
    no float field set and precision 6, so a [double] is written as
    [printf("%.6g")] would; after [std::fixed] it is written as
    [printf("%.<precision>f")]. *)
Record ostream := mkStream {
  written : string;
  fixedField : bool;
  precision : nat
}.

Definition freshStream : ostream := mkStream "" false 6.

Definition putString (s : string) (o : ostream) : ostream :=
  mkStream (written o ++ s) (fixedField o) (precision o).

Definition formatDouble (o : ostream) (d : float) : string :=
  if fixedField o then fmtFixed (precision o) d else fmtGeneral (precision o) d.

Definition putDouble (d : float) (o : ostream) : ostream :=
  putString (formatDouble o d) o.

Definition putSize (n : nat) (o : ostream) : ostream :=
  putString (decimal (N.of_nat n)) o.

Definition endl (o : ostream) : ostream := putString newline o.

Definition setFixed (o : ostream) : ostream :=
  mkStream (written o) true (precision o).

Definition setPrecision (p : nat) (o : ostream) : ostream :=
  mkStream (written o) (fixedField o) p.

Notation "o |> f" := (f o) (at level 45, left associativity, only parsing).

(** *** Polyscope and the file system *)

(** The registered Polyscope mesh: its named scalar quantities.
    Adding a quantity replaces one of the same name. *)
Record SurfaceMeshView := mkView {
  vertexScalars : list (string * VertexData float);
  edgeScalars : list (string * EdgeData float)
}.

Definition addQuantity (name : string) (data : list float)
    (qs : list (string * list float)) : list (string * list float) :=
  (name, data) :: filter (fun q => negb (String.eqb (fst q) name)) qs.

Definition addVertexScalarQuantity (name : string) (data : VertexData float)
    (ps : SurfaceMeshView) : SurfaceMeshView :=
  mkView (addQuantity name data (vertexScalars ps)) (edgeScalars ps).

Definition addEdgeScalarQuantity (name : string) (data : EdgeData float)
    (ps : SurfaceMeshView) : SurfaceMeshView :=
  mkView (vertexScalars ps) (addQuantity name data (edgeScalars ps)).

(** The disk: the text of each file that exists, and whether a name
    can be opened for writing. *)
Record FileSystem := mkFS {
  fileText : string -> option string;
  canOpen : string -> bool
}.

Definition writeFile (name text : string) (fs : FileSystem) : FileSystem :=
  mkFS (fun n => if String.eqb n name then Some text else fileText fs n)
       (canOpen fs).

(** What the program does besides changing its globals and the disk:
    console output, Polyscope pop-ups, and a run of the solver. *)
Inductive Event :=
| Cout (text : string)
| PsWarning (msg : string)
| PsError (msg : string)
| PsInfo (msg : string)
| Propagate (sources : list SurfacePoint).

(** *** Global state *)

Record Program := mkProgram {
  mesh : ManifoldSurfaceMesh;
  geometry : VertexPositionGeometry;
  psMesh : SurfaceMeshView;
  planeHeight : float;
  planeThreshold : float;
  planeNormal : Vector3;
  currentGeodesicDistances : VertexData float
}.

Record World := mkWorld {
  prog : Program;
  disk : FileSystem;
  trace : list Event
}.

Definition emit (ev : Event) (w : World) : World :=
  mkWorld (prog w) (disk w) (trace w ++ [ev]).

(** The globals as [main] leaves them after loading the mesh. *)
Definition initialProgram (m : ManifoldSurfaceMesh)
    (g : VertexPositionGeometry) : Program :=
  mkProgram m g (mkView [] []) (-0.975) 0.01 (mkVector3 0 1 0) [].

(** *** [exportGeodesicDistances] *)

Definition writeHeader (p : Program) (o : ostream) : ostream :=
  o |> putString "# Geodesic distances from plane" |> endl
    |> putString "# Plane normal: "
    |> putDouble (x (planeNormal p)) |> putString " "
    |> putDouble (y (planeNormal p)) |> putString " "
    |> putDouble (z (planeNormal p)) |> endl
    |> putString "# Plane height: " |> putDouble (planeHeight p) |> endl
    |> putString "# Number of vertices: " |> putSize (nVertices (mesh p)) |> endl
    |> putString "#" |> endl
    |> putString "# Format: vertex_index x y z geodesic_distance" |> endl
    |> endl.

Definition writeVertex (p : Program) (acc : ostream * nat) (v : Vertex)
    : ostream * nat :=
  let (o, vIdx) := acc in
  let pos := position (geometry p) v in
  let distance := nth v (currentGeodesicDistances p) 0%float in
  (o |> putSize vIdx |> putString " "
     |> putDouble (x pos) |> putString " "
     |> putDouble (y pos) |> putString " "
     |> putDouble (z pos) |> putString " "
     |> putDouble distance |> endl,
   S vIdx).

Definition writeBody (p : Program) (o : ostream) : ostream :=
  let o := o |> setFixed |> setPrecision 10 in
  fst (fold_left (writeVertex p) (vertices (mesh p)) (o, 0)).

(** Everything the function sends to the file. *)
Definition exportText (p : Program) : string :=
  written (freshStream |> writeHeader p |> writeBody p).

Definition exportGeodesicDistances (filename : string) (w : World) : World :=
  if Nat.eqb (List.length (currentGeodesicDistances (prog w))) 0 then
    emit (PsWarning
      "No geodesic distances computed yet. Please compute geodesics first.") w
  else if negb (canOpen (disk w) filename) then
    emit (PsError ("Failed to open file for writing: " ++ filename)) w
  else
    emit (PsInfo ("Exported geodesic distances to: " ++ filename))
      (mkWorld (prog w) (writeFile filename (exportText (prog w)) (disk w))
               (trace w)).

(** *** [computeGeodesics] *)

(** [std::min(a, b)] is [(b < a) ? b : a] and [std::max(a, b)] is
    [(a < b) ? b : a]. *)
Definition stdMin (a b : float) : float := if (b <? a)%float then b else a.
Definition stdMax (a b : float) : float := if (a <? b)%float then b else a.

Definition planeDistance (p : Program) (v : Vertex) : float :=
  (dot (position (geometry p) v) (planeNormal p) - planeHeight p)%float.

Definition crossesPlane (dist1 dist2 : float) : bool :=
  ((dist1 * dist2 <=? 0) && (1e-10 <? abs (dist1 - dist2)))%float.

Definition intersectionParameter (dist1 dist2 : float) : float :=
  let t := (dist1 / (dist1 - dist2))%float in
  stdMax 0 (stdMin 1 t).

Definition edgeStep (p : Program)
    (acc : list SurfacePoint * EdgeData float) (e : Edge)
    : list SurfacePoint * EdgeData float :=
  let (sourcePoints, edgeIndicator) := acc in
  let v1 := tailVertex (mesh p) e in
  let v2 := tipVertex (mesh p) e in
  let dist1 := planeDistance p v1 in
  let dist2 := planeDistance p v2 in
  if crossesPlane dist1 dist2 then
    let t := intersectionParameter dist1 dist2 in
    (sourcePoints ++ [EdgePoint e t], setAt e 1%float edgeIndicator)
  else acc.

Definition findCrossings (p : Program)
    : list SurfacePoint * EdgeData float :=
  fold_left (edgeStep p) (edges (mesh p))
            ([], repeat 0%float (nEdges (mesh p))).

Definition sourcePoints (p : Program) : list SurfacePoint :=
  fst (findCrossings p).

(** What one pass of the loop body appends for edge [e]. *)
Definition emitted (p : Program) (e : Edge) : list SurfacePoint :=
  fst (edgeStep p ([], []) e).

Definition onEdge (e : Edge) (s : SurfacePoint) : bool :=
  match s with
  | EdgePoint e' _ => Nat.eqb e' e
  | _ => false
  end.

Definition pointsOnEdge (e : Edge) (l : list SurfacePoint)
    : list SurfacePoint :=
  filter (onEdge e) l.

(** The part of the globals that the export reads. *)
Definition sameField (p q : Program) : Prop :=
  mesh p = mesh q /\ geometry p = geometry q /\
  currentGeodesicDistances p = currentGeodesicDistances q /\
  planeNormal p = planeNormal q /\ planeHeight p = planeHeight q.

(** The part of the globals that a propagation run reads. *)
Definition sameSurface (p q : Program) : Prop :=
  mesh p = mesh q /\ geometry p = geometry q /\
  planeNormal p = planeNormal q /\ planeHeight p = planeHeight q.

Section WithSolver.

(** [GeodesicAlgorithmExact]: construct on a mesh and geometry,
    [propagate] the sources, then ask [closestSource] at a point. *)
Variable closestSource :
  ManifoldSurfaceMesh -> VertexPositionGeometry ->
  list SurfacePoint -> SurfacePoint -> nat * float.

Definition computeGeodesics (w : World) : World :=
  let p := prog w in
  let w := emit (Cout ("planeHeight: " ++ fmtGeneral 6 (planeHeight p)
                         ++ newline)) w in
  let (sources, edgeIndicator) := findCrossings p in
  match sources with
  | [] =>
      emit (PsWarning
        "No edges intersect with the plane! Adjust plane parameters.") w
  | _ :: _ =>
      let w := emit (Propagate sources) w in
      let distances :=
        map (fun v => snd (closestSource (mesh p) (geometry p) sources
                             (VertexPoint v)))
            (vertices (mesh p)) in
      let ps := psMesh p
                |> addVertexScalarQuantity "geodesic_distance" distances
                |> addEdgeScalarQuantity "source_edges" edgeIndicator in
      let p' := mkProgram (mesh p) (geometry p) ps (planeHeight p)
                          (planeThreshold p) (planeNormal p) distances in
      emit (PsInfo ("Computed geodesic distances from plane with "
                      ++ decimal (N.of_nat (List.length sources))
                      ++ " edge intersection points"))
           (mkWorld p' (disk w) (trace w))
  end.

End WithSolver.

End Main.

(** ** Reading the exported text *)

Module Reader.
Import GC Fmt Main.

Fixpoint allChars (P : ascii -> bool) (s : string) : bool :=
  match s with
  | EmptyString => true
  | String c r => P c && allChars P r
  end.

Definition isDigit (c : ascii) : bool :=
  let n := N_of_ascii c in (48 <=? n)%N && (n <=? 57)%N.

(** The pieces of [s] between occurrences of [c]. *)
Fixpoint splitOn (c : ascii) (s : string) : list string :=
  match s with
  | EmptyString => [""]
  | String a r =>
      if Ascii.eqb a c then "" :: splitOn c r
      else match splitOn c r with
           | h :: t => String a h :: t
           | [] => [String a ""]
           end
  end.

Fixpoint parseDigits (acc : N) (s : string) : option N :=
  match s with
  | EmptyString => Some acc
  | String c r =>
      if isDigit c then parseDigits (10 * acc + (N_of_ascii c - 48)) r
      else None
  end.

Definition parseNat (s : string) : option N :=
  match s with
  | EmptyString => None
  | String _ _ => parseDigits 0 s
  end.

Definition withoutSign (s : string) : string :=
  match s with
  | String "-" r => r
  | _ => s
  end.

Definition isNegative (s : string) : bool :=
  match s with
  | String "-" _ => true
  | _ => false
  end.

(** A token in fixed notation with exactly [prec] decimals:
    an optional minus, digits, a point, [prec] digits. *)
Definition isFixedPoint (prec : nat) (s : string) : bool :=
  match splitOn "." (withoutSign s) with
  | [ip; fp] =>
      negb (String.eqb ip "") && allChars isDigit ip &&
      allChars isDigit fp && Nat.eqb (String.length fp) prec
  | _ => false
  end.

(** Modelled from the spec: the repository exports but never reads its
    file, so the reader follows the format of section 6.  A real is a
    token [-]digits.digits; its value is taken exactly. *)
Definition parseReal (s : string) : option Q :=
  match splitOn "." (withoutSign s) with
  | [ip; fp] =>
      match parseNat ip, parseNat fp with
      | Some i, Some f =>
          let scale := (10 ^ Pos.of_nat (String.length fp))%positive in
          let magnitude := Qmake (Z.of_N i * Zpos scale + Z.of_N f) scale in
          Some (if isNegative s then Qopp magnitude else magnitude)
      | _, _ => None
      end
  | _ => None
  end.

Record VertexRow := mkRow {
  rowIndex : N;
  rowX : Q;
  rowY : Q;
  rowZ : Q;
  rowDistance : Q
}.

(** Modelled from the spec: one vertex line,
    [<index> <x> <y> <z> <distance>], fields separated by one space. *)
Definition parseLine (l : string) : option VertexRow :=
  match splitOn " " l with
  | [ti; tx; ty; tz; td] =>
      match parseNat ti, parseReal tx, parseReal ty, parseReal tz,
            parseReal td with
      | Some i, Some vx, Some vy, Some vz, Some d =>
          Some (mkRow i vx vy vz d)
      | _, _, _, _, _ => None
      end
  | _ => None
  end.

(** Data lines are the non-empty lines that are not [#] comments. *)
Definition isData (l : string) : bool :=
  match l with
  | EmptyString => false
  | String c _ => negb (Ascii.eqb c "#")
  end.

Fixpoint parseLines (ls : list string) : option (list VertexRow) :=
  match ls with
  | [] => Some []
  | l :: r =>
      match parseLine l, parseLines r with
      | Some row, Some rows => Some (row :: rows)
      | _, _ => None
      end
  end.

(** Modelled from the spec: the whole file; [#]-prefixed header lines
    and the blank separator carry no vertex data, every other line is a
    vertex line. *)
Definition parseFile (text : string) : option (list VertexRow) :=
  parseLines (filter isData (splitOn (ascii_of_nat 10) text)).

(** The real number a finite [double] stands for. *)
Definition isFinite (d : float) : bool :=
  match Prim2SF d with
  | S754_zero _ | S754_finite _ _ _ => true
  | S754_infinity _ | S754_nan => false
  end.

(** [m * 2^e] *)
Definition dyadic (m : positive) (e : Z) : Q :=
  match e with
  | Z0 => inject_Z (Zpos m)
  | Zpos k => inject_Z (Zpos (m * 2 ^ k))
  | Zneg k => Qmake (Zpos m) (2 ^ k)
  end.

Definition realValue (d : float) : Q :=
  match Prim2SF d with
  | S754_finite s m e => if s then Qopp (dyadic m e) else dyadic m e
  | _ => 0%Q
  end.

Definition within (eps a b : Q) : Prop := (Qabs (a - b) <= eps)%Q.

Definition finite3 (v : Vector3) : bool :=
  isFinite (x v) && isFinite (y v) && isFinite (z v).

(** The value of a fixed-notation token with 10 decimals whose digits,
    point removed, spell [scaled]. *)
Definition fixedValue (s : bool) (scaled : N) : Q :=
  let magnitude := Qmake (Z.of_N scaled) (10 ^ 10) in
  if s then Qopp magnitude else magnitude.

(** A parsed row agrees with vertex [v] of the program: same index,
    coordinates and distance within [1e-9]. *)
Definition rowMatches (p : Program) (v : Vertex) (row : VertexRow) : Prop :=
  let pos := position (geometry p) v in
  let eps := (1 # 10 ^ 9)%Q in
  rowIndex row = N.of_nat v /\
  within eps (rowX row) (realValue (x pos)) /\
  within eps (rowY row) (realValue (y pos)) /\
  within eps (rowZ row) (realValue (z pos)) /\
  within eps (rowDistance row)
    (realValue (nth v (currentGeodesicDistances p) 0%float)).

Definition finiteVertex (p : Program) (v : Vertex) : bool :=
  finite3 (position (geometry p) v) &&
  isFinite (nth v (currentGeodesicDistances p) 0%float).

Definition isNot (c : ascii) (a : ascii) : bool := negb (Ascii.eqb a c).

(** The characters a printed number can contain. *)
Definition isNumChar (c : ascii) : bool :=
  isDigit c ||
  existsb (Ascii.eqb c) (list_ascii_of_string ".-+einfa").

End Reader.

(** ** The layout of the exported file *)

Module Format.
Import GC Fmt Main.

Definition unlines (ls : list string) : string :=
  fold_right (fun l r : string => l ++ newline ++ r)%string "" ls.

(** The six header lines, reals written by [real]. *)
Definition headerLines (real : float -> string) (p : Program)
    : list string :=
  [ "# Geodesic distances from plane";
    ("# Plane normal: " ++ real (x (planeNormal p)) ++ " "
       ++ real (y (planeNormal p)) ++ " " ++ real (z (planeNormal p)))%string;
    ("# Plane height: " ++ real (planeHeight p))%string;
    ("# Number of vertices: "
       ++ decimal (N.of_nat (nVertices (mesh p))))%string;
    "#";
    "# Format: vertex_index x y z geodesic_distance" ].

Definition vertexLine (p : Program) (v : Vertex) : string :=
  let pos := position (geometry p) v in
  decimal (N.of_nat v) ++ " " ++ fmtFixed 10 (x pos) ++ " "
    ++ fmtFixed 10 (y pos) ++ " " ++ fmtFixed 10 (z pos) ++ " "
    ++ fmtFixed 10 (nth v (currentGeodesicDistances p) 0%float).

Definition fileLayout (real : float -> string) (p : Program) : string :=
  unlines (headerLines real p ++ [""]
             ++ map (vertexLine p) (vertices (mesh p))).

(** The layout as section 6 of the specification words it: every
    real of the file, header included, in fixed notation with 10
    decimals. *)
Definition specLayout (p : Program) : string :=
  fileLayout (fmtFixed 10) p.

Definition startsWithHash (l : string) : bool :=
  match l with
  | String "#" _ => true
  | _ => false
  end.

End Format.

(** ** Scenarios *)

Module Scenario.
Import GC Main.

(** The unit square in the plane [z = 0], corners numbered
    counter-clockwise from the origin, cut into two triangles along
    the diagonal 0-2 ([diag = false]) or 1-3 ([diag = true]).  Edges 0-3
    are the sides, edge 4 the diagonal; [flip] reverses an edge. *)
Definition orient (flip : bool) (a b : Vertex) : Vertex * Vertex :=
  if flip then (b, a) else (a, b).

Definition unitSquare (diag f0 f1 f2 f3 f4 : bool) : ManifoldSurfaceMesh :=
  mkMesh 4
    (if diag then [(0, 1, 3); (1, 2, 3)] else [(0, 1, 2); (0, 2, 3)])
    [orient f0 0 1; orient f1 1 2; orient f2 2 3; orient f3 3 0;
     if diag then orient f4 1 3 else orient f4 0 2].

Definition unitSquareGeometry : VertexPositionGeometry :=
  mkGeometry [mkVector3 0 0 0; mkVector3 1 0 0;
              mkVector3 1 1 0; mkVector3 0 1 0].

(** The midline [y = 0.5] ([vertical = false]) or [x = 0.5]. *)
Definition midlineNormal (vertical : bool) : Vector3 :=
  if vertical then mkVector3 1 0 0 else mkVector3 0 1 0.

Definition slicedSquare (diag vertical f0 f1 f2 f3 f4 : bool) : Program :=
  mkProgram (unitSquare diag f0 f1 f2 f3 f4) unitSquareGeometry
            (mkView [] []) 0.5 0.01 (midlineNormal vertical) [].

(** The square as loaded by [main], plane at its default height. *)
Definition loadedSquare : Program :=
  initialProgram (unitSquare false false false false false false)
                 unitSquareGeometry.

Definition emptyDisk : FileSystem := mkFS (fun _ => None) (fun _ => true).

Definition computedSquare : Program :=
  mkProgram (unitSquare false false false false false false)
            unitSquareGeometry (mkView [] []) 0.5 0.01 (mkVector3 0 1 0)
            [0.5; 0.5; 0.5; 0.5]%float.

(** The same distance field in a program whose other globals differ. *)
Definition computedSquareLater : Program :=
  mkProgram (unitSquare false false false false false false)
            unitSquareGeometry
            (mkView [("geodesic_distance", [0.5; 0.5; 0.5; 0.5]%float)] [])
            0.5 0.05 (mkVector3 0 1 0)
            [0.5; 0.5; 0.5; 0.5]%float.

Definition usedDisk : FileSystem :=
  mkFS (fun n => if String.eqb n "notes.txt" then Some "old" else None)
       (fun _ => true).

Definition squareWorld : World := mkWorld computedSquare emptyDisk [].

Definition squareWorldLater : World :=
  mkWorld computedSquareLater usedDisk [PsInfo "ready"].

End Scenario.

(** ** The control panel and [main] *)

Module Gui.
Import GC Fmt Main.

(** What ImGui reports during one call of the callback: for each
    input widget the new value when the user changed it, for each
    button whether it was pressed, for the file name box its new text
    when edited.  Widget values are C [float]s, widened to [double] on
    assignment; any [double] is allowed here. *)
Record Frame := mkFrame {
  normalInput : option (float * float * float);
  heightInput : option float;
  thicknessInput : option float;
  computePressed : bool;
  xyPressed : bool;
  xzPressed : bool;
  yzPressed : bool;
  filenameInput : option string;
  exportPressed : bool
}.

Definition idleFrame : Frame :=
  mkFrame None None None false false false false None false.

(** The globals together with the callback's static file name buffer. *)
Record Session := mkSession {
  world : World;
  exportFilename : string
}.

Definition withProgram (p : Program) (w : World) : World :=
  mkWorld p (disk w) (trace w).

Definition setPlaneNormal (n : Vector3) (w : World) : World :=
  let p := prog w in
  withProgram (mkProgram (mesh p) (geometry p) (psMesh p) (planeHeight p)
                 (planeThreshold p) n (currentGeodesicDistances p)) w.

Definition setPlaneHeight (h : float) (w : World) : World :=
  let p := prog w in
  withProgram (mkProgram (mesh p) (geometry p) (psMesh p) h
                 (planeThreshold p) (planeNormal p)
                 (currentGeodesicDistances p)) w.

Definition setPlaneThreshold (th : float) (w : World) : World :=
  let p := prog w in
  withProgram (mkProgram (mesh p) (geometry p) (psMesh p) (planeHeight p)
                 th (planeNormal p) (currentGeodesicDistances p)) w.

(** [main]'s view of the command line after [parser.ParseCLI]. *)
Inductive CommandLine :=
| CliHelp
| CliParseError (what : string)
| CliParsed (inputFilename : option string).

Inductive Outcome :=
| HelpShown (out : string)
| BadArguments (err : string)
| LoadFailed (out : list Event)
| Finished (s : Session).

Definition exitCode (o : Outcome) : option nat :=
  match o with
  | HelpShown _ => Some 0
  | BadArguments _ => Some 1
  | LoadFailed _ => None
  | Finished _ => Some 0
  end.

Section WithLibraries.

(** geometry-central's solver, [normalize] and mesh reader ([None]: the
    reader throws), the usage text of the argument parser, and the disk
    the program starts on. *)
Variable closestSource :
  ManifoldSurfaceMesh -> VertexPositionGeometry ->
  list SurfacePoint -> SurfacePoint -> nat * float.
Variable normalize : Vector3 -> Vector3.
Variable readManifoldSurfaceMesh :
  string -> option (ManifoldSurfaceMesh * VertexPositionGeometry).
Variable usage : string.
Variable startDisk : FileSystem.

Definition presetButton (pressed : bool) (n : Vector3) (w : World) : World :=
  if pressed then computeGeodesics closestSource (setPlaneNormal n w) else w.

Definition myCallback (f : Frame) (s : Session) : Session :=
  let w := world s in
  let w := match normalInput f with
           | Some (a, b, c) => setPlaneNormal (normalize (mkVector3 a b c)) w
           | None => w
           end in
  let w := match heightInput f with
           | Some h => setPlaneHeight h w
           | None => w
           end in
  let w := match thicknessInput f with
           | Some th => setPlaneThreshold th w
           | None => w
           end in
  let w := if computePressed f then computeGeodesics closestSource w else w in
  let w := presetButton (xyPressed f) (mkVector3 0 0 1) w in
  let w := presetButton (xzPressed f) (mkVector3 0 1 0) w in
  let w := presetButton (yzPressed f) (mkVector3 1 0 0) w in
  let name := match filenameInput f with
              | Some text => text
              | None => exportFilename s
              end in
  let w := if exportPressed f then exportGeodesicDistances name w else w in
  mkSession w name.

(** [polyscope::show]: the callback once per frame until the window
    closes. *)
Definition show (frames : list Frame) (s : Session) : Session :=
  fold_left (fun s f => myCallback f s) frames s.

Definition main (cli : CommandLine) (frames : list Frame) : Outcome :=
  match cli with
  | CliHelp => HelpShown usage
  | CliParseError what => BadArguments (what ++ newline ++ usage)
  | CliParsed inputFilename =>
      let (meshPath, out) :=
        match inputFilename with
        | None =>
            ("bunny.obj",
             [Cout ("No mesh file specified, loading default: "
                      ++ "bunny.obj" ++ newline)])
        | Some path => (path, [])
        end in
      match readManifoldSurfaceMesh meshPath with
      | None => LoadFailed out
      | Some (m, g) =>
          let w := mkWorld (initialProgram m g) startDisk out in
          let w := computeGeodesics closestSource w in
          Finished (show frames (mkSession w "geodesic_distances.txt"))
      end
  end.

End WithLibraries.

End Gui.

(** ** Observations on the program state *)

Module Observe.
Import GC Fmt Main.

(** The crossing test of the loop body at edge [e], and the point the
    body appends when it passes. *)
Definition crossing (p : Program) (e : Edge) : bool :=
  crossesPlane (planeDistance p (tailVertex (mesh p) e))
               (planeDistance p (tipVertex (mesh p) e)).

Definition crossingPoint (p : Program) (e : Edge) : SurfacePoint :=
  EdgePoint e (intersectionParameter
                 (planeDistance p (tailVertex (mesh p) e))
                 (planeDistance p (tipVertex (mesh p) e))).

(** A source the loop can produce on mesh [m]: a point of an existing
    edge at a parameter in [0,1]. *)
Definition validSource (m : ManifoldSurfaceMesh) (s : SurfacePoint) : Prop :=
  match s with
  | EdgePoint e t =>
      e < nEdges m /\ (0 <=? t)%float = true /\ (t <=? 1)%float = true
  | _ => False
  end.

Definition edgeOf (s : SurfacePoint) : nat :=
  match s with
  | EdgePoint e _ => e
  | _ => 0
  end.

(** The stored distances are absent or one per vertex. *)
Definition wellSized (p : Program) : Prop :=
  currentGeodesicDistances p = [] \/
  List.length (currentGeodesicDistances p) = nVertices (mesh p).

(** From [w] to [w'] the loaded surface is the same and the stored
    distances are still absent or one per vertex. *)
Definition preserved (w w' : World) : Prop :=
  mesh (prog w') = mesh (prog w) /\
  geometry (prog w') = geometry (prog w) /\
  (wellSized (prog w) -> wellSized (prog w')).

(** The Polyscope quantity registered under [name]. *)
Definition quantity (name : string) (qs : list (string * list float))
    : option (list float) :=
  match find (fun q => String.eqb (fst q) name) qs with
  | Some q => Some (snd q)
  | None => None
  end.

(** What the solver answers at vertex [v] for the sources of [p]. *)
Definition solved
    (closestSource : ManifoldSurfaceMesh -> VertexPositionGeometry ->
                     list SurfacePoint -> SurfacePoint -> nat * float)
    (p : Program) (v : Vertex) : float :=
  snd (closestSource (mesh p) (geometry p) (sourcePoints p) (VertexPoint v)).

End Observe.

(** ** More scenarios *)

Module Cases.
Import GC Main Gui.

(** The unit square with its plane height lost to a NaN. *)
Definition nanSquare : Program :=
  mkProgram (Scenario.unitSquare false false false false false false)
            Scenario.unitSquareGeometry (mkView [] []) nan 0.01
            (mkVector3 0 1 0) [].

(** The unit square cut at [y = 0]: the bottom side lies in the plane,
    the left side and the diagonal leave it from corner 0. *)
Definition groundedSquare : Program :=
  mkProgram (Scenario.unitSquare false false false false true false)
            Scenario.unitSquareGeometry (mkView [] []) 0 0.01
            (mkVector3 0 1 0) [].

(** The unit square cut at [y = 1]: the right side and the diagonal
    reach the plane at corner 2. *)
Definition cappedSquare : Program :=
  mkProgram (Scenario.unitSquare false false false false false false)
            Scenario.unitSquareGeometry (mkView [] []) 1 0.01
            (mkVector3 0 1 0) [].


(** A solver that answers the height of the vertex above the plane
    [y = 0.5], whatever the sources. *)
Definition heightSolver (m : ManifoldSurfaceMesh) (g : VertexPositionGeometry)
    (sources : list SurfacePoint) (P : SurfacePoint) : nat * float :=
  match P with
  | VertexPoint v => (0, abs (y (position g v) - 0.5)%float)
  | _ => (0, 0%float)
  end.

Definition slicedWorld : World :=
  mkWorld (Scenario.slicedSquare false false false false false false false)
          Scenario.emptyDisk [].

Definition readOnlyDisk : FileSystem :=
  mkFS (fun n => if String.eqb n "geodesic_distances.txt"
                 then Some "old" else None)
       (fun _ => false).

Definition identityNormalize (v : Vector3) : Vector3 := v.

Definition squareReader (path : string)
    : option (ManifoldSurfaceMesh * VertexPositionGeometry) :=
  if String.eqb path "square.obj"
  then Some (Scenario.unitSquare false false false false false false,
             Scenario.unitSquareGeometry)
  else None.

Definition moveHeight (h : float) : Frame :=
  mkFrame None (Some h) None false false false false None false.

Definition pressCompute : Frame :=
  mkFrame None None None true false false false None false.

Definition pressExport : Frame :=
  mkFrame None None None false false false false None true.

End Cases.

(** * Properties *)

Import GC Fmt Main.

(** ** Comparisons on [double] *)


Lemma ltb_leb (a b : float) : (a <? b)%float = true -> (a <=? b)%float = true.
Proof.
  rewrite ltb_spec, leb_spec. unfold SFltb, SFleb.
  destruct (SFcompare _ _) as [[ | | ]|]; congruence.
Qed.



Lemma clamp_range (t : float) :
  (0 <=? stdMax 0 (stdMin 1 t))%float = true /\
  (stdMax 0 (stdMin 1 t) <=? 1)%float = true.
Proof.
  unfold stdMin, stdMax.
  destruct (t <? 1)%float eqn:H1.
  - destruct (0 <? t)%float eqn:H0; split; auto using ltb_leb.
  - split; reflexivity.
Qed.

(** ** The crossing loop *)

Lemma edgeStep_emitted (p : Program) (e : Edge) acc ind :
  fst (edgeStep p (acc, ind) e) = acc ++ emitted p e.
Proof.
  unfold emitted, edgeStep.
  destruct (crossesPlane _ _); simpl; [reflexivity | now rewrite app_nil_r].
Qed.

Lemma fold_edgeStep (p : Program) (es : list Edge) acc ind :
  fst (fold_left (edgeStep p) es (acc, ind)) = acc ++ flat_map (emitted p) es.
Proof.
  revert acc ind. induction es as [|e es IH]; intros acc ind;
    cbn [fold_left flat_map].
  - simpl. now rewrite app_nil_r.
  - pose proof (edgeStep_emitted p e acc ind) as He.
    destruct (edgeStep p (acc, ind) e) as [acc' ind']. simpl in He. subst acc'.
    rewrite IH. now rewrite <- app_assoc.
Qed.

Lemma sourcePoints_flat_map (p : Program) :
  sourcePoints p = flat_map (emitted p) (edges (mesh p)).
Proof. unfold sourcePoints, findCrossings. now rewrite fold_edgeStep. Qed.

Lemma emitted_onEdge (p : Program) (e e' : Edge) :
  pointsOnEdge e (emitted p e') = if Nat.eqb e' e then emitted p e' else [].
Proof.
  unfold emitted, edgeStep, pointsOnEdge.
  destruct (crossesPlane _ _); simpl.
  - destruct (Nat.eqb e' e); reflexivity.
  - destruct (Nat.eqb e' e); reflexivity.
Qed.

Lemma pointsOnEdge_flat_map (p : Program) (e : Edge) (es : list Edge) :
  NoDup es -> In e es ->
  pointsOnEdge e (flat_map (emitted p) es) = emitted p e.
Proof.
  assert (Hout : forall l, ~ In e l ->
            pointsOnEdge e (flat_map (emitted p) l) = []).
  { induction l as [|a l IH]; intros Hn; simpl; [reflexivity|].
    unfold pointsOnEdge in *. rewrite filter_app.
    fold (pointsOnEdge e (emitted p a)). rewrite emitted_onEdge.
    destruct (Nat.eqb_spec a e) as [->|Hne].
    - exfalso. apply Hn. now left.
    - simpl. apply IH. intros Hin. apply Hn. now right. }
  induction es as [|a es IH]; intros Hnd Hin; [destruct Hin|].
  inversion Hnd as [|? ? Ha Hnd']; subst. simpl.
  unfold pointsOnEdge. rewrite filter_app.
  fold (pointsOnEdge e (emitted p a)).
  fold (pointsOnEdge e (flat_map (emitted p) es)).
  rewrite emitted_onEdge.
  destruct (Nat.eqb_spec a e) as [->|Hne].
  - rewrite (Hout es Ha). now rewrite app_nil_r.
  - destruct Hin as [Heq|Hin]; [congruence|]. simpl. now apply IH.
Qed.

(** *** The sign of a rounded product *)









(** The sign test is made on the rounded product: two distances of the
    same sign so small that their product underflows to zero pass it. *)
Example crossesPlane_underflow :
  crossesPlane 1e-320 1e-5 = true /\
  intersectionParameter 1e-320 1e-5 = 0%float.
Proof. split; reflexivity. Qed.


(** ** [computeGeodesics] without sources *)

Lemma emitted_not_crossing (p : Program) (e : Edge) :
  crossesPlane (planeDistance p (tailVertex (mesh p) e))
               (planeDistance p (tipVertex (mesh p) e)) = false ->
  emitted p e = [].
Proof. intros H. unfold emitted, edgeStep. now rewrite H. Qed.

Lemma flat_map_nil {A B : Type} (f : A -> list B) (l : list A) :
  (forall a, In a l -> f a = []) -> flat_map f l = [].
Proof.
  induction l as [|a l IH]; intros H; simpl; [reflexivity|].
  rewrite (H a (or_introl eq_refl)). simpl. apply IH.
  intros b Hb. apply H. now right.
Qed.



(** ** The unit square *)

Lemma C8_counterexample :
  ~ (exists a b : SurfacePoint,
       sourcePoints
         (Scenario.slicedSquare false false false false false false false)
       = [a; b]).
Proof. intros [a [b H]]. vm_compute in H. discriminate H. Qed.

(** C8 (amended): for the unit square cut into two triangles along
    either diagonal, with any orientation of its five edges, sliced
    through either midline, the extractor returns exactly three points,
    each at parameter 0.5: one on each of the two sides that cross the
    midline and one on the diagonal. *)
Theorem C8_unit_square_midline (diag vertical f0 f1 f2 f3 f4 : bool) :
  sourcePoints (Scenario.slicedSquare diag vertical f0 f1 f2 f3 f4) =
  if vertical
  then [EdgePoint 0 0.5%float; EdgePoint 2 0.5%float; EdgePoint 4 0.5%float]
  else [EdgePoint 1 0.5%float; EdgePoint 3 0.5%float; EdgePoint 4 0.5%float].
Proof.
  destruct diag, vertical, f0, f1, f2, f3, f4; vm_compute; reflexivity.
Qed.

(** ** Export *)

(** C10: with no stored distances, [exportGeodesicDistances] only
    raises the "not computed yet" warning: globals and disk are
    returned as they were, so no file is opened, created or written. *)
Theorem C10_export_before_compute (filename : string) (w : World)
    (Hempty : currentGeodesicDistances (prog w) = []) :
  exportGeodesicDistances filename w =
  mkWorld (prog w) (disk w)
    (trace w ++
     [PsWarning
        "No geodesic distances computed yet. Please compute geodesics first."]).
Proof. unfold exportGeodesicDistances. rewrite Hempty. reflexivity. Qed.

Lemma C10_export_before_compute_witness :
  disk (exportGeodesicDistances "geodesic_distances.txt"
          (mkWorld Scenario.loadedSquare Scenario.emptyDisk []))
  = Scenario.emptyDisk.
Proof.
  rewrite (C10_export_before_compute "geodesic_distances.txt"
             (mkWorld Scenario.loadedSquare Scenario.emptyDisk []) eq_refl).
  reflexivity.
Defined.

Lemma exportText_sameField (p q : Program) :
  sameField p q -> exportText p = exportText q.
Proof.
  destruct p as [m g ps h th n d], q as [m' g' ps' h' th' n' d'].
  unfold sameField. simpl. intros (-> & -> & -> & -> & ->). reflexivity.
Qed.

Lemma export_writes (filename : string) (w : World) :
  currentGeodesicDistances (prog w) <> [] ->
  canOpen (disk w) filename = true ->
  exportGeodesicDistances filename w =
  mkWorld (prog w) (writeFile filename (exportText (prog w)) (disk w))
    (trace w ++ [PsInfo ("Exported geodesic distances to: " ++ filename)]).
Proof.
  intros Hne Hopen. unfold exportGeodesicDistances.
  destruct (currentGeodesicDistances (prog w)) as [|d ds]; [congruence|].
  simpl. rewrite Hopen. reflexivity.
Qed.

Lemma writeFile_read (name text : string) (fs : FileSystem) :
  fileText (writeFile name text fs) name = Some text.
Proof. simpl. now rewrite String.eqb_refl. Qed.

(** C7: two exports from worlds whose mesh, vertex positions, stored
    distances and plane parameters agree leave the same text in their
    files, whatever else differs: the other globals, the disks, the
    traces and the file names. *)
Theorem C7_export_reproducible (f1 f2 : string) (w1 w2 : World)
    (Hsame : sameField (prog w1) (prog w2))
    (Hcomputed : currentGeodesicDistances (prog w1) <> [])
    (Hopen1 : canOpen (disk w1) f1 = true)
    (Hopen2 : canOpen (disk w2) f2 = true) :
  exists text : string,
    fileText (disk (exportGeodesicDistances f1 w1)) f1 = Some text /\
    fileText (disk (exportGeodesicDistances f2 w2)) f2 = Some text.
Proof.
  exists (exportText (prog w1)).
  assert (Hcomputed2 : currentGeodesicDistances (prog w2) <> []).
  { destruct Hsame as (_ & _ & <- & _). exact Hcomputed. }
  rewrite (export_writes f1 w1 Hcomputed Hopen1).
  rewrite (export_writes f2 w2 Hcomputed2 Hopen2).
  rewrite <- (exportText_sameField _ _ Hsame).
  split; apply writeFile_read.
Qed.

(** ** Strings *)

Import Reader Format.

Lemma sapp_assoc (a b c : string) : ((a ++ b) ++ c = a ++ (b ++ c))%string.
Proof. induction a as [|ch a IH]; simpl; [reflexivity | now rewrite IH]. Qed.

Lemma sapp_nil_r (a : string) : (a ++ "" = a)%string.
Proof. induction a as [|ch a IH]; simpl; [reflexivity | now rewrite IH]. Qed.

Lemma slength_app (a b : string) :
  String.length (a ++ b) = String.length a + String.length b.
Proof. induction a as [|ch a IH]; simpl; [reflexivity | now rewrite IH]. Qed.

Lemma unlines_app (l1 l2 : list string) :
  unlines (l1 ++ l2) = (unlines l1 ++ unlines l2)%string.
Proof.
  induction l1 as [|l l1 IH]; simpl; [reflexivity|].
  now rewrite IH, !sapp_assoc.
Qed.

(** ** The text written by the export *)

Lemma writeHeader_written (p : Program) :
  written (writeHeader p freshStream) =
  unlines (headerLines (fmtGeneral 6) p ++ [""]).
Proof.
  cbv [writeHeader endl putSize putDouble putString formatDouble
       freshStream written fixedField precision].
  unfold headerLines, unlines. cbn [fold_right app].
  rewrite !sapp_assoc. reflexivity.
Qed.

Lemma writeHeader_state (p : Program) :
  fixedField (writeHeader p freshStream) = false /\
  precision (writeHeader p freshStream) = 6.
Proof. split; reflexivity. Qed.

Lemma writeVertex_fold (p : Program) (k a : nat) (txt : string) :
  fold_left (writeVertex p) (seq a k) (mkStream txt true 10, a) =
  (mkStream (txt ++ unlines (map (vertexLine p) (seq a k))) true 10, a + k).
Proof.
  revert a txt. induction k as [|k IH]; intros a txt.
  - simpl. now rewrite sapp_nil_r, Nat.add_0_r.
  - cbn [seq fold_left map].
    replace (writeVertex p (mkStream txt true 10, a) a) with
      (mkStream (txt ++ vertexLine p a ++ newline) true 10, S a).
    2:{ cbv [writeVertex endl putSize putDouble putString formatDouble
             written fixedField precision].
        unfold vertexLine. rewrite !sapp_assoc. reflexivity. }
    rewrite IH. replace (S a + k) with (a + S k) by lia.
    cbn [unlines fold_right].
    fold (unlines (map (vertexLine p) (seq (S a) k))).
    now rewrite !sapp_assoc.
Qed.

Lemma exportText_layout (p : Program) :
  exportText p = fileLayout (fmtGeneral 6) p.
Proof.
  unfold exportText, writeBody, setFixed, setPrecision, vertices, fileLayout.
  cbn [written fixedField precision].
  rewrite writeVertex_fold. cbn [fst written].
  rewrite writeHeader_written.
  rewrite <- unlines_app, <- app_assoc. reflexivity.
Qed.

(** ** Decimal digits *)

Lemma digitChar_value (d : N) :
  (d < 10)%N -> N_of_ascii (digitChar d) = (48 + d)%N.
Proof. intros H. unfold digitChar. apply N_ascii_embedding. lia. Qed.

Lemma digitChar_isDigit (d : N) : (d < 10)%N -> isDigit (digitChar d) = true.
Proof.
  intros H. unfold isDigit. rewrite (digitChar_value d H).
  apply andb_true_iff. split; apply N.leb_le; lia.
Qed.

Lemma allChars_app (P : ascii -> bool) (a b : string) :
  allChars P (a ++ b) = allChars P a && allChars P b.
Proof.
  induction a as [|c a IH]; simpl; [reflexivity|].
  now rewrite IH, andb_assoc.
Qed.

Lemma allChars_impl (P R : ascii -> bool) (s : string) :
  (forall c, P c = true -> R c = true) ->
  allChars P s = true -> allChars R s = true.
Proof.
  intros HPR. induction s as [|c s IH]; simpl; [reflexivity|].
  intros H. apply andb_true_iff in H. destruct H as [Hc Hs].
  now rewrite (HPR c Hc), IH.
Qed.

Lemma lowDigits_app (k : nat) (n : N) (acc : string) :
  lowDigits k n acc = (lowDigits k n "" ++ acc)%string.
Proof.
  revert n acc. induction k as [|k IH]; intros n acc; simpl; [reflexivity|].
  rewrite IH. rewrite (IH (n / 10)%N (String _ "")).
  now rewrite sapp_assoc.
Qed.

Lemma lowDigits_allDigits (k : nat) (n : N) (acc : string) :
  allChars isDigit acc = true -> allChars isDigit (lowDigits k n acc) = true.
Proof.
  revert n acc. induction k as [|k IH]; intros n acc Hacc; simpl; [exact Hacc|].
  apply IH. simpl. rewrite Hacc, digitChar_isDigit; [reflexivity|].
  apply N.mod_lt. lia.
Qed.

Lemma lowDigits_length (k : nat) (n : N) (acc : string) :
  String.length (lowDigits k n acc) = k + String.length acc.
Proof.
  revert n acc. induction k as [|k IH]; intros n acc; simpl; [reflexivity|].
  rewrite IH. simpl. lia.
Qed.

Lemma parseDigits_lowDigits (k : nat) (n acc : N) (rest : string) :
  parseDigits acc (lowDigits k n rest) =
  parseDigits (acc * 10 ^ N.of_nat k + n mod 10 ^ N.of_nat k) rest.
Proof.
  revert n acc rest. induction k as [|k IH]; intros n acc rest.
  - simpl. rewrite N.mod_1_r. f_equal. lia.
  - cbn [lowDigits]. rewrite IH. cbn [parseDigits].
    assert (Hd : (n mod 10 < 10)%N) by (apply N.mod_lt; lia).
    rewrite (digitChar_isDigit _ Hd), (digitChar_value _ Hd).
    f_equal.
    replace (N.of_nat (S k)) with (N.succ (N.of_nat k)) by lia.
    rewrite N.pow_succ_r'.
    rewrite (N.Div0.mod_mul_r n 10 (10 ^ N.of_nat k)).
    rewrite (N.add_comm 48), N.add_sub. ring.
Qed.

Lemma stripZeros_allChars (P : ascii -> bool) (s : string) :
  allChars P s = true -> allChars P (stripZeros s) = true.
Proof.
  induction s as [|c s IH]; [intros; reflexivity|].
  intros H. cbn [stripZeros]. destruct s as [|c' s']; [exact H|].
  destruct (Ascii.eqb c "0"); [|exact H].
  apply IH. simpl in H. apply andb_true_iff in H. apply H.
Qed.

Lemma stripZeros_nonempty (s : string) : s <> "" -> stripZeros s <> "".
Proof.
  induction s as [|c s IH]; [congruence|].
  intros _. cbn [stripZeros]. destruct s as [|c' s']; [discriminate|].
  destruct (Ascii.eqb c "0"); [|discriminate].
  apply IH. discriminate.
Qed.

Lemma parseDigits_stripZeros (s : string) :
  parseDigits 0 (stripZeros s) = parseDigits 0 s.
Proof.
  induction s as [|c s IH]; [reflexivity|].
  cbn [stripZeros]. destruct s as [|c' s']; [reflexivity|].
  destruct (Ascii.eqb_spec c "0") as [->|Hc]; [|reflexivity].
  rewrite IH. reflexivity.
Qed.

Lemma lowDigits_nonempty (k : nat) (n : N) : lowDigits (S k) n "" <> "".
Proof.
  intros H. apply (f_equal String.length) in H.
  rewrite lowDigits_length in H. simpl in H. lia.
Qed.

Lemma decimal_allDigits (n : N) : allChars isDigit (decimal n) = true.
Proof.
  unfold decimal. apply stripZeros_allChars. now apply lowDigits_allDigits.
Qed.

Lemma decimal_nonempty (n : N) : decimal n <> "".
Proof. unfold decimal. apply stripZeros_nonempty, lowDigits_nonempty. Qed.

Lemma pow2_le_pow10 (k : N) : (2 ^ k <= 10 ^ k)%N.
Proof. apply N.pow_le_mono_l. lia. Qed.

Lemma parseDigits_decimal (n : N) : parseDigits 0 (decimal n) = Some n.
Proof.
  unfold decimal. rewrite parseDigits_stripZeros, parseDigits_lowDigits.
  cbn [parseDigits]. f_equal. rewrite N.mul_0_l, N.add_0_l.
  apply N.mod_small.
  pose proof (N.size_gt n) as Hs.
  pose proof (pow2_le_pow10 (N.size n)) as Hp.
  replace (N.of_nat (S (N.to_nat (N.size n)))) with (N.succ (N.size n)) by lia.
  rewrite N.pow_succ_r'. lia.
Qed.

Lemma parseNat_decimal (n : N) : parseNat (decimal n) = Some n.
Proof.
  unfold parseNat. pose proof (decimal_nonempty n) as Hne.
  pose proof (parseDigits_decimal n) as Hp.
  destruct (decimal n); [congruence | exact Hp].
Qed.

Lemma parseNat_lowDigits (k : nat) (n : N) :
  (n < 10 ^ N.of_nat (S k))%N -> parseNat (lowDigits (S k) n "") = Some n.
Proof.
  intros Hlt. unfold parseNat.
  pose proof (lowDigits_nonempty k n) as Hne.
  pose proof (parseDigits_lowDigits (S k) n 0 "") as Hp.
  destruct (lowDigits (S k) n ""); [congruence|].
  rewrite Hp. cbn [parseDigits]. f_equal.
  rewrite N.mul_0_l, N.add_0_l. now apply N.mod_small.
Qed.

(** ** Splitting *)

Lemma splitOn_nonempty (c : ascii) (s : string) : splitOn c s <> [].
Proof.
  induction s as [|a s IH]; simpl; [discriminate|].
  destruct (Ascii.eqb a c); [discriminate|].
  destruct (splitOn c s); [congruence | discriminate].
Qed.

Lemma splitOn_none (c : ascii) (s : string) :
  allChars (isNot c) s = true -> splitOn c s = [s].
Proof.
  induction s as [|a s IH]; simpl; [reflexivity|].
  intros H. apply andb_true_iff in H. destruct H as [Ha Hs].
  unfold isNot in Ha. apply negb_true_iff in Ha. rewrite Ha.
  now rewrite (IH Hs).
Qed.

Lemma splitOn_app (c : ascii) (s1 s2 : string) :
  allChars (isNot c) s1 = true ->
  splitOn c (s1 ++ String c s2) = s1 :: splitOn c s2.
Proof.
  induction s1 as [|a s1 IH]; simpl.
  - intros _. now rewrite Ascii.eqb_refl.
  - intros H. apply andb_true_iff in H. destruct H as [Ha Hs].
    unfold isNot in Ha. apply negb_true_iff in Ha. rewrite Ha.
    now rewrite (IH Hs).
Qed.

Lemma splitOn_unlines (ls : list string) :
  Forall (fun l => allChars (isNot (ascii_of_nat 10)) l = true) ls ->
  splitOn (ascii_of_nat 10) (unlines ls) = ls ++ [""].
Proof.
  induction 1 as [|l ls Hl _ IH]; [reflexivity|].
  cbn [unlines fold_right]. fold (unlines ls).
  unfold newline. cbn [append].
  rewrite (splitOn_app _ _ _ Hl), IH. reflexivity.
Qed.

Lemma digit_isNot (c a : ascii) :
  isDigit c = false -> isDigit a = true -> isNot c a = true.
Proof.
  intros Hc Ha. unfold isNot. apply negb_true_iff.
  destruct (Ascii.eqb_spec a c) as [->|]; [congruence | reflexivity].
Qed.

Lemma digits_without (c : ascii) (s : string) :
  isDigit c = false -> allChars isDigit s = true ->
  allChars (isNot c) s = true.
Proof. intros Hc. apply allChars_impl. intros a. now apply digit_isNot. Qed.

(** ** Fixed notation *)

Lemma fixedDigits_shape (scaled : N) :
  fixedDigits 10 scaled =
  (decimal (scaled / 10 ^ 10) ++
   String "." (lowDigits 10 (scaled mod 10 ^ 10) ""))%string.
Proof. reflexivity. Qed.

Lemma decimal_first (n : N) :
  exists c r, decimal n = String c r /\ isDigit c = true.
Proof.
  pose proof (decimal_nonempty n) as Hne.
  pose proof (decimal_allDigits n) as Hd.
  destruct (decimal n) as [|c r]; [congruence|].
  exists c, r. split; [reflexivity|].
  simpl in Hd. apply andb_true_iff in Hd. apply Hd.
Qed.

Lemma signed_withoutSign (s : bool) (n : N) (rest : string) :
  withoutSign (signText s ++ decimal n ++ rest) = (decimal n ++ rest)%string /\
  isNegative (signText s ++ decimal n ++ rest) = s.
Proof.
  destruct s; simpl; [split; reflexivity|].
  destruct (decimal_first n) as (c & r & -> & Hc). simpl.
  assert (Hne : c <> "-"%char) by (intros ->; discriminate Hc).
  unfold withoutSign, isNegative.
  destruct c as [[] [] [] [] [] [] [] []]; try (split; reflexivity).
  congruence.
Qed.

Lemma splitOn_fixedDigits (scaled : N) :
  splitOn "." (fixedDigits 10 scaled) =
  [decimal (scaled / 10 ^ 10); lowDigits 10 (scaled mod 10 ^ 10) ""].
Proof.
  rewrite fixedDigits_shape, splitOn_app, splitOn_none; [reflexivity| |].
  - apply digits_without; [reflexivity|]. now apply lowDigits_allDigits.
  - apply digits_without; [reflexivity|]. apply decimal_allDigits.
Qed.

Lemma parseReal_fixedDigits (s : bool) (scaled : N) :
  exists q, parseReal (signText s ++ fixedDigits 10 scaled) = Some q /\
            (q == fixedValue s scaled)%Q.
Proof.
  unfold parseReal.
  rewrite fixedDigits_shape.
  destruct (signed_withoutSign s (scaled / 10 ^ 10)
              (String "." (lowDigits 10 (scaled mod 10 ^ 10) ""))) as [-> ->].
  rewrite <- fixedDigits_shape, splitOn_fixedDigits.
  rewrite parseNat_decimal, parseNat_lowDigits
    by (apply N.mod_lt; discriminate).
  rewrite lowDigits_length.
  change (Pos.of_nat (10 + String.length "")) with 10%positive.
  eexists. split; [reflexivity|].
  assert (Hq : (Z.of_N (scaled / 10 ^ 10) * Zpos (10 ^ 10)
                + Z.of_N (scaled mod 10 ^ 10))%Z = Z.of_N scaled).
  { pose proof (N.div_mod scaled (10 ^ 10)%N) as H.
    change (Zpos (10 ^ 10)) with (Z.of_N (10 ^ 10)). lia. }
  unfold fixedValue. rewrite Hq. destruct s; reflexivity.
Qed.

Lemma isFixedPoint_fixedDigits (s : bool) (scaled : N) :
  isFixedPoint 10 (signText s ++ fixedDigits 10 scaled) = true.
Proof.
  unfold isFixedPoint.
  rewrite fixedDigits_shape.
  destruct (signed_withoutSign s (scaled / 10 ^ 10)
              (String "." (lowDigits 10 (scaled mod 10 ^ 10) ""))) as [-> _].
  rewrite <- fixedDigits_shape, splitOn_fixedDigits.
  rewrite decimal_allDigits, lowDigits_allDigits, lowDigits_length
    by reflexivity.
  pose proof (decimal_nonempty (scaled / 10 ^ 10)) as Hne.
  apply String.eqb_neq in Hne. rewrite Hne. reflexivity.
Qed.

(** ** Rounding *)

Lemma roundHalfEven_error (num den : N) :
  (0 < den)%N ->
  let r := Z.of_N (roundHalfEven num den) in
  (Z.abs (2 * (r * Z.of_N den - Z.of_N num)) <= Z.of_N den)%Z.
Proof.
  intros Hden. unfold roundHalfEven.
  pose proof (N.div_mod num den ltac:(lia)) as Hdm.
  pose proof (N.mod_lt num den ltac:(lia)) as Hlt.
  set (q := (num / den)%N) in *. set (m := (num mod den)%N) in *.
  assert (Hz : Z.of_N num = (Z.of_N den * Z.of_N q + Z.of_N m)%Z) by lia.
  destruct (N.compare_spec (2 * m) den) as [Heq|Hl|Hg].
  - destruct (N.even q); cbv zeta; rewrite Hz; nia.
  - cbv zeta. rewrite Hz. nia.
  - cbv zeta. rewrite Hz. nia.
Qed.

Lemma scaledDen_pos (e k : Z) : (0 < scaledDen e k)%N.
Proof.
  unfold scaledDen. apply N.mul_pos_pos; apply N.neq_0_lt_0;
    apply N.pow_nonzero; discriminate.
Qed.

Lemma fixed_error (s : bool) (m : positive) (e : Z) :
  within (1 # 10 ^ 9)
    (fixedValue s (roundHalfEven (scaledNum m e 10) (scaledDen e 10)))
    (if s then Qopp (dyadic m e) else dyadic m e).
Proof.
  pose proof (roundHalfEven_error (scaledNum m e 10) (scaledDen e 10)
                (scaledDen_pos e 10)) as H.
  cbv zeta in H.
  set (r := roundHalfEven (scaledNum m e 10) (scaledDen e 10)) in *.
  unfold within. apply Qabs_Qle_condition.
  unfold fixedValue, dyadic, scaledNum, scaledDen in *.
  destruct e as [|k|k]; cbn [Z.to_N Z.opp] in H;
    rewrite ?N.pow_0_r, ?N.mul_1_r, ?N.mul_1_l in H.
  - destruct s; unfold Qle, Qminus, Qplus, Qopp, inject_Z; cbn [Qnum Qden];
      rewrite ?Pos2Z.inj_mul; change (Z.of_N 1) with 1%Z in H;
      set (T := Zpos (10 ^ 10)) in *; set (U := Zpos (10 ^ 9)) in *;
      assert (HT : T = (10 * U)%Z) by reflexivity;
      assert (HU : (0 < U)%Z) by reflexivity;
      rewrite N2Z.inj_mul in H; change (Z.of_N (10 ^ 10)) with T in H;
      change (Z.of_N (N.pos m)) with (Zpos m) in H; nia.
  - destruct s; unfold Qle, Qminus, Qplus, Qopp, inject_Z; cbn [Qnum Qden];
      rewrite ?Pos2Z.inj_mul, ?Pos2Z.inj_pow; change (Z.of_N 1) with 1%Z in H;
      set (T := Zpos (10 ^ 10)) in *; set (U := Zpos (10 ^ 9)) in *;
      assert (HT : T = (10 * U)%Z) by reflexivity;
      assert (HU : (0 < U)%Z) by reflexivity;
      rewrite !N2Z.inj_mul, N2Z.inj_pow in H;
      change (Z.of_N (10 ^ 10)) with T in H;
      change (Z.of_N (N.pos m)) with (Zpos m) in H;
      change (Z.of_N (N.pos k)) with (Zpos k) in H;
      change (Z.of_N 2) with 2%Z in H;
      set (P := (2 ^ Zpos k)%Z) in *; nia.
  - destruct s; unfold Qle, Qminus, Qplus, Qopp; cbn [Qnum Qden];
      rewrite ?Pos2Z.inj_mul, ?Pos2Z.inj_pow;
      set (T := Zpos (10 ^ 10)) in *; set (U := Zpos (10 ^ 9)) in *;
      assert (HT : T = (10 * U)%Z) by reflexivity;
      assert (HU : (0 < U)%Z) by reflexivity;
      rewrite !N2Z.inj_mul, ?N2Z.inj_pow in H;
      change (Z.of_N (10 ^ 10)) with T in H;
      change (Z.of_N (N.pos m)) with (Zpos m) in H;
      change (Z.of_N (N.pos k)) with (Zpos k) in H;
      change (Z.of_N 2) with 2%Z in H;
      assert (HP : (0 < 2 ^ Zpos k)%Z) by (apply Z.pow_pos_nonneg; lia);
      set (P := (2 ^ Zpos k)%Z) in *; nia.
Qed.

(** ** Printed numbers contain no separator *)

Lemma numChar_isNot (sep c : ascii) :
  isNumChar sep = false -> isNumChar c = true -> isNot sep c = true.
Proof.
  intros Hs Hc. unfold isNot. apply negb_true_iff.
  destruct (Ascii.eqb_spec c sep) as [->|]; [congruence | reflexivity].
Qed.

Lemma numChars_without (sep : ascii) (s : string) :
  isNumChar sep = false -> allChars isNumChar s = true ->
  allChars (isNot sep) s = true.
Proof. intros Hs. apply allChars_impl. intros c. now apply numChar_isNot. Qed.

Lemma digit_numChar (c : ascii) : isDigit c = true -> isNumChar c = true.
Proof. intros H. unfold isNumChar. now rewrite H. Qed.

Lemma digits_numChars (s : string) :
  allChars isDigit s = true -> allChars isNumChar s = true.
Proof. apply allChars_impl, digit_numChar. Qed.

Lemma signText_numChars (s : bool) : allChars isNumChar (signText s) = true.
Proof. destruct s; reflexivity. Qed.

Lemma zeros_numChars (k : nat) : allChars isNumChar (zeros k) = true.
Proof. induction k as [|k IH]; simpl; [reflexivity | exact IH]. Qed.

Lemma substring_allChars (P : ascii -> bool) (s : string) (n m : nat) :
  allChars P s = true -> allChars P (substring n m s) = true.
Proof.
  revert n m. induction s as [|c s IH]; intros n m H.
  - destruct n, m; reflexivity.
  - simpl in H. apply andb_true_iff in H. destruct H as [Hc Hs].
    destruct n as [|n]; destruct m as [|m]; simpl; try reflexivity.
    + rewrite Hc. now apply IH.
    + now apply IH.
    + now apply IH.
Qed.

Lemma dropTrailingZeros_allChars (P : ascii -> bool) (s : string) :
  allChars P s = true -> allChars P (dropTrailingZeros s) = true.
Proof.
  induction s as [|c s IH]; intros H; [reflexivity|].
  simpl in H. apply andb_true_iff in H. destruct H as [Hc Hs].
  specialize (IH Hs). cbn [dropTrailingZeros].
  destruct (dropTrailingZeros s) as [|c' r].
  - destruct (Ascii.eqb c "0"); simpl; [reflexivity | now rewrite Hc].
  - cbn [allChars] in *. now rewrite Hc.
Qed.

Lemma withFraction_numChars (ip fp : string) :
  allChars isNumChar ip = true -> allChars isNumChar fp = true ->
  allChars isNumChar (withFraction ip fp) = true.
Proof.
  intros Hi Hf. unfold withFraction.
  pose proof (dropTrailingZeros_allChars isNumChar fp Hf) as Hd.
  destruct (dropTrailingZeros fp) as [|c r]; [exact Hi|].
  rewrite allChars_app, Hi. cbn [allChars andb] in *. exact Hd.
Qed.

Lemma decimal_numChars (n : N) : allChars isNumChar (decimal n) = true.
Proof. apply digits_numChars, decimal_allDigits. Qed.

Lemma lowDigits_numChars (k : nat) (n : N) :
  allChars isNumChar (lowDigits k n "") = true.
Proof. apply digits_numChars. now apply lowDigits_allDigits. Qed.

Lemma exponentText_numChars (X : Z) :
  allChars isNumChar (exponentText X) = true.
Proof.
  unfold exponentText. rewrite !allChars_app, decimal_numChars.
  destruct (X <? 0)%Z, (Z.abs X <? 10)%Z; reflexivity.
Qed.

Lemma generalDigits_numChars (prec : nat) (m : positive) (e : Z) :
  allChars isNumChar (generalDigits prec m e) = true.
Proof.
  unfold generalDigits. cbv zeta.
  match goal with |- context [lowDigits ?k ?n ""] =>
    pose proof (lowDigits_numChars k n) as Hds;
    generalize dependent (lowDigits k n "")
  end.
  intros ds Hds.
  destruct (_ && _).
  - destruct (0 <=? _)%Z.
    + apply withFraction_numChars; now apply substring_allChars.
    + apply withFraction_numChars; [reflexivity|].
      now rewrite allChars_app, zeros_numChars, Hds.
  - rewrite allChars_app, exponentText_numChars, andb_true_r.
    apply withFraction_numChars; now apply substring_allChars.
Qed.

Lemma fmtGeneral_numChars (prec : nat) (d : float) :
  allChars isNumChar (fmtGeneral prec d) = true.
Proof.
  unfold fmtGeneral. destruct (Prim2SF d) as [s|s| |s m e];
    rewrite ?allChars_app, ?signText_numChars, ?generalDigits_numChars;
    reflexivity.
Qed.

Lemma fixedDigits_numChars (prec : nat) (scaled : N) :
  allChars isNumChar (fixedDigits prec scaled) = true.
Proof.
  unfold fixedDigits. rewrite allChars_app, decimal_numChars.
  destruct prec; [reflexivity|].
  cbn [allChars]. now rewrite lowDigits_numChars.
Qed.

Lemma fmtFixed_numChars (prec : nat) (d : float) :
  allChars isNumChar (fmtFixed prec d) = true.
Proof.
  unfold fmtFixed. destruct (Prim2SF d) as [s|s| |s m e]; cbv zeta;
    rewrite ?allChars_app, ?signText_numChars, ?fixedDigits_numChars;
    reflexivity.
Qed.

(** ** Reading back one number *)

Lemma within_zero (s : bool) :
  within (1 # 10 ^ 9) (fixedValue s 0) 0%Q.
Proof. destruct s; unfold within; apply Qabs_Qle_condition; split; discriminate. Qed.

Lemma parseReal_fmtFixed (d : float) :
  isFinite d = true ->
  exists q, parseReal (fmtFixed 10 d) = Some q /\
            within (1 # 10 ^ 9) q (realValue d).
Proof.
  unfold isFinite, fmtFixed, realValue.
  destruct (Prim2SF d) as [s|s| |s m e]; try discriminate; intros _; cbv zeta.
  - destruct (parseReal_fixedDigits s 0) as (q & Hp & Hq).
    exists q. split; [exact Hp|].
    unfold within. rewrite Hq. apply within_zero.
  - destruct (parseReal_fixedDigits s
                (roundHalfEven (scaledNum m e 10) (scaledDen e 10)))
      as (q & Hp & Hq).
    exists q. split; [exact Hp|].
    unfold within. rewrite Hq. apply fixed_error.
Qed.

Lemma isFixedPoint_fmtFixed (d : float) :
  isFinite d = true -> isFixedPoint 10 (fmtFixed 10 d) = true.
Proof.
  unfold isFinite, fmtFixed.
  destruct (Prim2SF d) as [s|s| |s m e]; try discriminate; intros _; cbv zeta;
    apply isFixedPoint_fixedDigits.
Qed.

(** ** Reading back the file *)

Lemma splitOn_sep (c : ascii) (s1 s2 : string) :
  allChars (isNot c) s1 = true ->
  splitOn c (s1 ++ String c "" ++ s2) = s1 :: splitOn c s2.
Proof. apply splitOn_app. Qed.

Lemma splitOn_vertexLine (p : Program) (v : Vertex) :
  let pos := position (geometry p) v in
  splitOn " " (vertexLine p v) =
  [decimal (N.of_nat v); fmtFixed 10 (x pos); fmtFixed 10 (y pos);
   fmtFixed 10 (z pos);
   fmtFixed 10 (nth v (currentGeodesicDistances p) 0%float)].
Proof.
  intros pos. unfold vertexLine. fold pos.
  rewrite !splitOn_sep, splitOn_none;
    try (apply numChars_without; [reflexivity | apply fmtFixed_numChars]).
  - reflexivity.
  - apply numChars_without; [reflexivity | apply decimal_numChars].
Qed.

Lemma parseLine_vertexLine (p : Program) (v : Vertex) :
  finiteVertex p v = true ->
  exists row, parseLine (vertexLine p v) = Some row /\ rowMatches p v row.
Proof.
  unfold finiteVertex, finite3. intros H.
  apply andb_true_iff in H. destruct H as [H Hd].
  apply andb_true_iff in H. destruct H as [H Hz].
  apply andb_true_iff in H. destruct H as [Hx Hy].
  destruct (parseReal_fmtFixed _ Hx) as (qx & Px & Wx).
  destruct (parseReal_fmtFixed _ Hy) as (qy & Py & Wy).
  destruct (parseReal_fmtFixed _ Hz) as (qz & Pz & Wz).
  destruct (parseReal_fmtFixed _ Hd) as (qd & Pd & Wd).
  exists (mkRow (N.of_nat v) qx qy qz qd). split.
  - unfold parseLine. rewrite splitOn_vertexLine.
    now rewrite parseNat_decimal, Px, Py, Pz, Pd.
  - unfold rowMatches. cbn [rowIndex rowX rowY rowZ rowDistance].
    repeat split; assumption.
Qed.

Lemma parseLines_vertexLines (p : Program) (vs : list Vertex) :
  (forall v, In v vs -> finiteVertex p v = true) ->
  exists rows, parseLines (map (vertexLine p) vs) = Some rows /\
               Forall2 (rowMatches p) vs rows.
Proof.
  induction vs as [|v vs IH]; intros Hfin.
  - exists []. split; [reflexivity | constructor].
  - destruct (parseLine_vertexLine p v (Hfin v (or_introl eq_refl)))
      as (row & Hrow & Hm).
    destruct IH as (rows & Hrows & Hms).
    { intros u Hu. apply Hfin. now right. }
    exists (row :: rows). split.
    + cbn [map parseLines]. now rewrite Hrow, Hrows.
    + now constructor.
Qed.

Lemma headerLines_hash (real : float -> string) (p : Program) :
  Forall (fun l => startsWithHash l = true) (headerLines real p).
Proof. unfold headerLines. repeat constructor. Qed.

Lemma hash_not_data (l : string) : startsWithHash l = true -> isData l = false.
Proof.
  destruct l as [|c l]; [discriminate|]. simpl.
  destruct (Ascii.eqb_spec c "#") as [->|Hne]; [reflexivity|].
  destruct c as [[] [] [] [] [] [] [] []]; try discriminate. congruence.
Qed.

Lemma vertexLine_isData (p : Program) (v : Vertex) :
  isData (vertexLine p v) = true.
Proof.
  unfold vertexLine.
  destruct (decimal_first (N.of_nat v)) as (c & r & -> & Hc).
  simpl. apply negb_true_iff.
  destruct (Ascii.eqb_spec c "#") as [->|]; [discriminate Hc | reflexivity].
Qed.

Lemma filter_none {A : Type} (f : A -> bool) (l : list A) :
  Forall (fun a => f a = false) l -> filter f l = [].
Proof. induction 1 as [|a l Ha _ IH]; simpl; [reflexivity | now rewrite Ha]. Qed.

Lemma filter_all {A : Type} (f : A -> bool) (l : list A) :
  Forall (fun a => f a = true) l -> filter f l = l.
Proof.
  induction 1 as [|a l Ha _ IH]; simpl; [reflexivity | now rewrite Ha, IH].
Qed.

Lemma filter_isData_layout (real : float -> string) (p : Program) :
  filter isData
    ((headerLines real p ++ [""] ++ map (vertexLine p) (vertices (mesh p)))
       ++ [""]) =
  map (vertexLine p) (vertices (mesh p)).
Proof.
  rewrite !filter_app.
  rewrite (filter_none isData (headerLines real p)).
  2:{ eapply Forall_impl; [|apply headerLines_hash].
      intros l. apply hash_not_data. }
  rewrite (filter_all isData (map (vertexLine p) (vertices (mesh p)))).
  2:{ apply Forall_forall. intros l Hl. apply in_map_iff in Hl.
      destruct Hl as (v & <- & _). apply vertexLine_isData. }
  simpl. now rewrite app_nil_r.
Qed.

Lemma headerLines_oneLine (p : Program) :
  Forall (fun l => allChars (isNot (ascii_of_nat 10)) l = true)
         (headerLines (fmtGeneral 6) p).
Proof.
  assert (Hg : forall d, allChars (isNot (ascii_of_nat 10))
                           (fmtGeneral 6 d) = true).
  { intros d. apply numChars_without; [reflexivity|].
    apply fmtGeneral_numChars. }
  assert (Hd : forall n, allChars (isNot (ascii_of_nat 10)) (decimal n) = true).
  { intros n. apply numChars_without; [reflexivity|].
    apply decimal_numChars. }
  unfold headerLines. repeat constructor;
    rewrite ?allChars_app, ?Hg, ?Hd; reflexivity.
Qed.

Lemma vertexLine_oneLine (p : Program) (v : Vertex) :
  allChars (isNot (ascii_of_nat 10)) (vertexLine p v) = true.
Proof.
  assert (Hf : forall d, allChars (isNot (ascii_of_nat 10))
                           (fmtFixed 10 d) = true).
  { intros d. apply numChars_without; [reflexivity|].
    apply fmtFixed_numChars. }
  assert (Hd : forall n, allChars (isNot (ascii_of_nat 10)) (decimal n) = true).
  { intros n. apply numChars_without; [reflexivity|].
    apply decimal_numChars. }
  unfold vertexLine. rewrite !allChars_app, !Hf, Hd. reflexivity.
Qed.

Lemma layout_lines (p : Program) :
  splitOn (ascii_of_nat 10) (fileLayout (fmtGeneral 6) p) =
  (headerLines (fmtGeneral 6) p ++ [""]
     ++ map (vertexLine p) (vertices (mesh p))) ++ [""].
Proof.
  unfold fileLayout. apply splitOn_unlines.
  apply Forall_app. split; [apply headerLines_oneLine|].
  apply Forall_app. split; [repeat constructor|].
  apply Forall_forall. intros l Hl. apply in_map_iff in Hl.
  destruct Hl as (v & <- & _). apply vertexLine_oneLine.
Qed.

Lemma parseFile_exportText (p : Program) :
  (forall v, In v (vertices (mesh p)) -> finiteVertex p v = true) ->
  exists rows, parseFile (exportText p) = Some rows /\
               Forall2 (rowMatches p) (vertices (mesh p)) rows.
Proof.
  intros Hfin. unfold parseFile.
  rewrite exportText_layout, layout_lines, filter_isData_layout.
  now apply parseLines_vertexLines.
Qed.

Lemma C7_export_reproducible_witness :
  exists text : string,
    fileText (disk (exportGeodesicDistances "a.txt" Scenario.squareWorld))
             "a.txt" = Some text /\
    fileText (disk (exportGeodesicDistances "b.txt" Scenario.squareWorldLater))
             "b.txt" = Some text.
Proof.
  apply (C7_export_reproducible "a.txt" "b.txt"
           Scenario.squareWorld Scenario.squareWorldLater).
  - repeat split.
  - discriminate.
  - reflexivity.
  - reflexivity.
Defined.

(** ** The exported file *)

Lemma C5_counterexample :
  let text := exportText Scenario.computedSquare in
  fileText (disk (exportGeodesicDistances "geodesic_distances.txt"
                    Scenario.squareWorld))
           "geodesic_distances.txt" = Some text /\
  text <> specLayout Scenario.computedSquare /\
  nth 2 (splitOn (ascii_of_nat 10) text) "" = "# Plane height: 0.5" /\
  isFixedPoint 10 "0.5" = false.
Proof.
  cbv zeta. split; [reflexivity|]. split; [|split].
  - intros H. vm_compute in H. discriminate H.
  - vm_compute. reflexivity.
  - reflexivity.
Qed.

(** C5 (amended): the exported file consists of six [#]-prefixed header
    lines (title, plane normal, plane height, vertex count, a bare [#],
    a legend), a blank line, then exactly one line per vertex,
    [<index> <x> <y> <z> <distance>], indices counting from 0 in vertex
    order.  The reals of the vertex lines are in fixed notation with 10
    decimals; the plane normal and height of the header are in the
    stream's default notation, at most 6 significant digits. *)
Theorem C5_export_layout (filename : string) (w : World)
    (Hcomputed : currentGeodesicDistances (prog w) <> [])
    (Hopen : canOpen (disk w) filename = true) :
  let p := prog w in
  let header := headerLines (fmtGeneral 6) p in
  let body := map (vertexLine p) (vertices (mesh p)) in
  exists text : string,
    fileText (disk (exportGeodesicDistances filename w)) filename = Some text /\
    text = unlines (header ++ [""] ++ body) /\
    splitOn (ascii_of_nat 10) text = (header ++ [""] ++ body) ++ [""] /\
    Forall (fun l => startsWithHash l = true) header /\
    List.length body = nVertices (mesh p) /\
    (forall v, v < nVertices (mesh p) ->
       nth v body "" =
       (decimal (N.of_nat v) ++ " "
        ++ fmtFixed 10 (x (position (geometry p) v)) ++ " "
        ++ fmtFixed 10 (y (position (geometry p) v)) ++ " "
        ++ fmtFixed 10 (z (position (geometry p) v)) ++ " "
        ++ fmtFixed 10 (nth v (currentGeodesicDistances p) 0%float))%string) /\
    (forall d, isFinite d = true -> isFixedPoint 10 (fmtFixed 10 d) = true).
Proof.
  intros p header body. exists (exportText p).
  split.
  { rewrite (export_writes filename w Hcomputed Hopen). apply writeFile_read. }
  split; [apply exportText_layout|].
  split; [rewrite exportText_layout; apply layout_lines|].
  split; [apply headerLines_hash|].
  split; [subst body; unfold vertices; now rewrite length_map, length_seq|].
  split; [|apply isFixedPoint_fmtFixed].
  intros v Hv. subst body. unfold vertices.
  rewrite (nth_indep _ "" (vertexLine p 0))
    by (now rewrite length_map, length_seq).
  rewrite map_nth, seq_nth by exact Hv. reflexivity.
Qed.

Lemma C5_export_layout_witness :
  exists text : string,
    fileText (disk (exportGeodesicDistances "geodesic_distances.txt"
                      Scenario.squareWorld))
             "geodesic_distances.txt" = Some text /\
    nth 7 (splitOn (ascii_of_nat 10) text) "" =
      "0 0.0000000000 0.0000000000 0.0000000000 0.5000000000".
Proof.
  destruct (C5_export_layout "geodesic_distances.txt" Scenario.squareWorld)
    as (text & Hfile & _ & Hlines & _).
  - discriminate.
  - reflexivity.
  - exists text. split; [exact Hfile|]. rewrite Hlines. reflexivity.
Defined.

(** C6: when every vertex position and stored distance is a finite
    number, the exported file parses back into one row per vertex, in
    vertex order, whose index is the vertex index and whose coordinates
    and distance are within [1e-9] of the values in memory. *)
Theorem C6_export_roundtrip (filename : string) (w : World)
    (Hcomputed : currentGeodesicDistances (prog w) <> [])
    (Hopen : canOpen (disk w) filename = true)
    (Hfinite : forall v, In v (vertices (mesh (prog w))) ->
                 finiteVertex (prog w) v = true) :
  exists (text : string) (rows : list VertexRow),
    fileText (disk (exportGeodesicDistances filename w)) filename = Some text /\
    parseFile text = Some rows /\
    Forall2 (rowMatches (prog w)) (vertices (mesh (prog w))) rows.
Proof.
  destruct (parseFile_exportText (prog w) Hfinite) as (rows & Hparse & Hrows).
  exists (exportText (prog w)), rows. split; [|split; assumption].
  rewrite (export_writes filename w Hcomputed Hopen). apply writeFile_read.
Qed.

Lemma C6_export_roundtrip_witness :
  exists (text : string) (rows : list VertexRow),
    fileText (disk (exportGeodesicDistances "geodesic_distances.txt"
                      Scenario.squareWorld))
             "geodesic_distances.txt" = Some text /\
    parseFile text = Some rows /\
    Forall2 (rowMatches Scenario.computedSquare)
            (vertices (mesh Scenario.computedSquare)) rows.
Proof.
  apply (C6_export_roundtrip "geodesic_distances.txt" Scenario.squareWorld).
  - discriminate.
  - reflexivity.
  - intros v Hv. simpl in Hv.
    destruct Hv as [<-|[<-|[<-|[<-|[]]]]]; reflexivity.
Defined.

(** ** What the crossing loop reads *)

Lemma findCrossings_sameSurface (p q : Program) :
  sameSurface p q -> findCrossings p = findCrossings q.
Proof.
  destruct p as [m g ps h th n d], q as [m' g' ps' h' th' n' d'].
  unfold sameSurface. simpl. intros (-> & -> & -> & ->). reflexivity.
Qed.

(** * Further properties of the program *)

Import Observe Gui.

(** ** The crossing loop as a whole *)

Lemma emitted_crossing (p : Program) (e : Edge) :
  emitted p e = if crossing p e then [crossingPoint p e] else [].
Proof.
  unfold emitted, edgeStep, crossing, crossingPoint.
  destruct (crossesPlane _ _); reflexivity.
Qed.

Lemma flat_map_emitted (p : Program) (es : list Edge) :
  flat_map (emitted p) es = map (crossingPoint p) (filter (crossing p) es).
Proof.
  induction es as [|e es IH]; [reflexivity|].
  cbn [flat_map filter]. rewrite IH, emitted_crossing.
  destruct (crossing p e); reflexivity.
Qed.

Lemma filter_seq_bounds (c : nat -> bool) (a n e : nat) :
  In e (filter c (seq a n)) -> a <= e < a + n.
Proof.
  intros H. apply filter_In in H. destruct H as [H _].
  apply in_seq in H. exact H.
Qed.

Lemma filter_seq_sorted (c : nat -> bool) (n a : nat) :
  StronglySorted lt (filter c (seq a n)).
Proof.
  revert a. induction n as [|n IH]; intros a; [constructor|].
  cbn [seq filter]. destruct (c a); [|apply IH].
  constructor; [apply IH|].
  apply Forall_forall. intros e He.
  apply filter_seq_bounds in He. lia.
Qed.

Lemma edgeOf_crossingPoint (p : Program) (es : list Edge) :
  map edgeOf (map (crossingPoint p) es) = es.
Proof.
  induction es as [|e es IH]; [reflexivity|].
  cbn [map]. now rewrite IH.
Qed.

Lemma sourcePoints_map (p : Program) :
  sourcePoints p =
  map (crossingPoint p) (filter (crossing p) (edges (mesh p))).
Proof. rewrite sourcePoints_flat_map. apply flat_map_emitted. Qed.

(** X1: The sources are the crossing edges in edge order, each at its
    clamped parameter: every source is a point of an existing edge with
    parameter in [0,1], edge indices increase strictly along the list
    (so no edge appears twice), and there are at most as many sources
    as edges. *)
Theorem sources_structure (p : Program) :
  sourcePoints p =
    map (crossingPoint p) (filter (crossing p) (edges (mesh p))) /\
  Forall (validSource (mesh p)) (sourcePoints p) /\
  StronglySorted lt (map edgeOf (sourcePoints p)) /\
  List.length (sourcePoints p) <= nEdges (mesh p).
Proof.
  pose proof (sourcePoints_map p) as Heq.
  split; [exact Heq|]. rewrite Heq. split; [|split].
  - apply Forall_forall. intros s Hs. apply in_map_iff in Hs.
    destruct Hs as (e & <- & He). unfold edges in He.
    apply filter_seq_bounds in He. unfold crossingPoint, validSource.
    split; [lia|]. apply clamp_range.
  - rewrite edgeOf_crossingPoint. apply filter_seq_sorted.
  - rewrite length_map. unfold edges.
    pose proof (filter_length_le (crossing p) (seq 0 (nEdges (mesh p)))) as H.
    now rewrite length_seq in H.
Qed.

Lemma setAt_length {A : Type} (i : nat) (a : A) (l : list A) :
  List.length (setAt i a l) = List.length l.
Proof.
  revert i. induction l as [|b l IH]; intros [|i]; simpl; try reflexivity.
  now rewrite IH.
Qed.

Lemma setAt_nth {A : Type} (i j : nat) (a d : A) (l : list A) :
  nth j (setAt i a l) d =
  if Nat.eqb j i && Nat.ltb i (List.length l) then a else nth j l d.
Proof.
  revert i j. induction l as [|b l IH]; intros i j.
  - destruct i, j; simpl; try reflexivity; now rewrite andb_false_r.
  - destruct i as [|i], j as [|j]; simpl; try reflexivity.
    rewrite IH. reflexivity.
Qed.

Lemma fold_edgeStep_indicator (p : Program) (es : list Edge) acc ind :
  let out := snd (fold_left (edgeStep p) es (acc, ind)) in
  List.length out = List.length ind /\
  forall j d, nth j out d =
    if existsb (Nat.eqb j) es && crossing p j && Nat.ltb j (List.length ind)
    then 1%float else nth j ind d.
Proof.
  revert acc ind. induction es as [|e es IH]; intros acc ind out.
  - split; [reflexivity|]. intros j d. reflexivity.
  - subst out. cbn [fold_left].
    destruct (edgeStep p (acc, ind) e) as [acc' ind'] eqn:Hstep.
    destruct (IH acc' ind') as [Hlen Hnth].
    assert (Hind : ind' = if crossing p e then setAt e 1%float ind else ind).
    { unfold edgeStep in Hstep. fold (crossing p e) in Hstep.
      destruct (crossing p e); now inversion Hstep. }
    split.
    + rewrite Hlen, Hind. destruct (crossing p e); [apply setAt_length|reflexivity].
    + intros j d. rewrite Hnth. cbn [existsb].
      assert (Hl : List.length ind' = List.length ind).
      { rewrite Hind. destruct (crossing p e);
          [apply setAt_length|reflexivity]. }
      rewrite Hl, Hind.
      destruct (Nat.eqb_spec j e) as [->|Hne].
      * cbn [orb]. destruct (crossing p e) eqn:Hc; cbn [andb].
        -- rewrite setAt_nth, Nat.eqb_refl. cbn [andb].
           destruct (Nat.ltb e (List.length ind));
             destruct (existsb (Nat.eqb e) es); reflexivity.
        -- now rewrite andb_false_r.
      * cbn [orb]. destruct (crossing p e).
        -- rewrite setAt_nth.
           replace (Nat.eqb j e) with false
             by (symmetry; now apply Nat.eqb_neq).
           reflexivity.
        -- reflexivity.
Qed.

Lemma indicator_map (p : Program) :
  snd (findCrossings p) =
  map (fun e => if crossing p e then 1%float else 0%float) (edges (mesh p)).
Proof.
  { unfold findCrossings.
    destruct (fold_edgeStep_indicator p (edges (mesh p)) []
                (repeat 0%float (nEdges (mesh p)))) as [Hlen Hnth].
    rewrite repeat_length in Hlen, Hnth.
    apply (nth_ext _ _ 0%float 0%float).
    - rewrite length_map. unfold edges at 2. rewrite length_seq. exact Hlen.
    - intros j Hj0.
      assert (Hj : j < nEdges (mesh p)).
      { eapply Nat.lt_le_trans; [exact Hj0|].
        apply Nat.eq_le_incl. exact Hlen. }
      rewrite Hnth.
      set (flag := fun e => if crossing p e then 1%float else 0%float).
      rewrite (nth_indep (map flag (edges (mesh p))) 0%float (flag 0))
        by (rewrite length_map; unfold edges; now rewrite length_seq).
      rewrite map_nth. unfold edges, flag. rewrite seq_nth by exact Hj.
      cbn [Nat.add].
      assert (Hex : existsb (Nat.eqb j) (seq 0 (nEdges (mesh p))) = true).
      { apply existsb_exists. exists j. split; [|apply Nat.eqb_refl].
        apply in_seq. lia. }
      rewrite Hex. apply Nat.ltb_lt in Hj. rewrite Hj.
      rewrite nth_repeat. destruct (crossing p j); reflexivity. }
Qed.

(** X2: The edge flags shown as "source_edges": one per edge, 1 on the
    edges that gave a source and 0 on the others; as many flags are
    raised as there are sources. *)
Theorem edge_indicator (p : Program) :
  snd (findCrossings p) =
    map (fun e => if crossing p e then 1%float else 0%float)
        (edges (mesh p)) /\
  List.length (sourcePoints p) =
    List.length (filter (fun flag => (flag =? 1)%float)
                        (snd (findCrossings p))).
Proof.
  pose proof (indicator_map p) as Hind.
  split; [exact Hind|].
  rewrite Hind, (sourcePoints_map p).
  rewrite length_map. clear Hind.
  induction (edges (mesh p)) as [|e es IH]; [reflexivity|].
  cbn [filter map]. destruct (crossing p e); cbn [filter].
  - change (1 =? 1)%float with true. cbv iota. cbn [List.length].
    now rewrite IH.
  - change (0 =? 1)%float with false. cbv iota. exact IH.
Qed.

(** ** Degenerate planes and vertices on the plane *)

Lemma Prim2SF_nan : Prim2SF nan = S754_nan.
Proof. reflexivity. Qed.

Lemma mul_nan_r (a : float) : (a * nan)%float = nan.
Proof.
  apply Prim2SF_inj. rewrite mul_spec, Prim2SF_nan.
  unfold SF64mul, SFmul. destruct (Prim2SF a); reflexivity.
Qed.

Lemma mul_nan_l (a : float) : (nan * a)%float = nan.
Proof.
  apply Prim2SF_inj. rewrite mul_spec, Prim2SF_nan. reflexivity.
Qed.

Lemma add_nan_r (a : float) : (a + nan)%float = nan.
Proof.
  apply Prim2SF_inj. rewrite add_spec, Prim2SF_nan.
  unfold SF64add, SFadd. destruct (Prim2SF a); reflexivity.
Qed.

Lemma add_nan_l (a : float) : (nan + a)%float = nan.
Proof.
  apply Prim2SF_inj. rewrite add_spec, Prim2SF_nan. reflexivity.
Qed.

Lemma sub_nan_r (a : float) : (a - nan)%float = nan.
Proof.
  apply Prim2SF_inj. rewrite sub_spec, Prim2SF_nan.
  unfold SF64sub, SFsub. destruct (Prim2SF a); reflexivity.
Qed.

Lemma sub_nan_l (a : float) : (nan - a)%float = nan.
Proof.
  apply Prim2SF_inj. rewrite sub_spec, Prim2SF_nan. reflexivity.
Qed.

Lemma crossesPlane_nan_l (d : float) : crossesPlane nan d = false.
Proof. unfold crossesPlane. now rewrite mul_nan_l. Qed.

Lemma planeDistance_nan (p : Program) (v : Vertex) :
  planeHeight p = nan \/ x (planeNormal p) = nan \/
  y (planeNormal p) = nan \/ z (planeNormal p) = nan ->
  planeDistance p v = nan.
Proof.
  unfold planeDistance, dot.
  intros [H | [H | [H | H]]]; rewrite H.
  - apply sub_nan_r.
  - now rewrite mul_nan_r, !add_nan_l, sub_nan_l.
  - now rewrite mul_nan_r, add_nan_r, add_nan_l, sub_nan_l.
  - now rewrite mul_nan_r, add_nan_r, sub_nan_l.
Qed.

(** X3: A plane whose height or whose normal has a NaN component crosses no
    edge of any mesh: [computeGeodesics] finds no source, raises the "no
    edges intersect" warning and keeps the globals and the disk. *)
Theorem nan_plane_no_sources
    (closestSource : ManifoldSurfaceMesh -> VertexPositionGeometry ->
                     list SurfacePoint -> SurfacePoint -> nat * float)
    (w : World)
    (Hnan : planeHeight (prog w) = nan \/ x (planeNormal (prog w)) = nan \/
            y (planeNormal (prog w)) = nan \/
            z (planeNormal (prog w)) = nan) :
  sourcePoints (prog w) = [] /\
  prog (computeGeodesics closestSource w) = prog w /\
  disk (computeGeodesics closestSource w) = disk w /\
  trace (computeGeodesics closestSource w) = trace w ++
    [Cout ("planeHeight: " ++ fmtGeneral 6 (planeHeight (prog w)) ++ newline);
     PsWarning "No edges intersect with the plane! Adjust plane parameters."].
Proof.
  assert (Hsrc : sourcePoints (prog w) = []).
  { rewrite sourcePoints_flat_map. apply flat_map_nil.
    intros e _. apply emitted_not_crossing.
    rewrite (planeDistance_nan _ _ Hnan). apply crossesPlane_nan_l. }
  split; [exact Hsrc|].
  unfold computeGeodesics. unfold sourcePoints in Hsrc.
  destruct (findCrossings (prog w)) as [srcs ind]. simpl in Hsrc. subst srcs.
  unfold emit. simpl. rewrite <- app_assoc. repeat split.
Qed.

Lemma nan_plane_no_sources_witness :
  sourcePoints Cases.nanSquare = [].
Proof.
  apply (nan_plane_no_sources (fun _ _ _ _ => (0, 0%float))
           (mkWorld Cases.nanSquare Scenario.emptyDisk [])).
  left. reflexivity.
Defined.

Lemma eqb_zero (d : float) :
  (d =? 0)%float = true -> exists s, Prim2SF d = S754_zero s.
Proof.
  rewrite FloatAxioms.eqb_spec. unfold SFeqb. change (Prim2SF 0) with (S754_zero false).
  destruct (Prim2SF d) as [s|s| |s m e]; simpl.
  - intros _. now exists s.
  - destruct s; discriminate.
  - discriminate.
  - destruct s; discriminate.
Qed.

(** X4: When the tail of an edge lies exactly on the plane and its tip is a
    finite distance away, beyond the tolerance, the edge crosses and its
    source sits at parameter 0, on the tail vertex itself. *)
Theorem tail_on_plane (p : Program) (e : Edge)
    (He : In e (edges (mesh p)))
    (Htail : (planeDistance p (tailVertex (mesh p) e) =? 0)%float = true)
    (Hfinite : isFinite (planeDistance p (tipVertex (mesh p) e)) = true)
    (Hfar : (1e-10 <? abs (planeDistance p (tipVertex (mesh p) e)))%float
            = true) :
  pointsOnEdge e (sourcePoints p) = [EdgePoint e 0%float].
Proof.
  set (d1 := planeDistance p (tailVertex (mesh p) e)) in *.
  set (d2 := planeDistance p (tipVertex (mesh p) e)) in *.
  destruct (eqb_zero d1 Htail) as (s1 & H1).
  unfold isFinite in Hfinite.
  destruct (Prim2SF d2) as [s2|s2| |s2 m2 e2] eqn:H2; try discriminate.
  { rewrite ltb_spec, abs_spec, H2 in Hfar. discriminate Hfar. }
  assert (Hsub : Prim2SF (d1 - d2) = S754_finite (negb s2) m2 e2).
  { rewrite sub_spec, H1, H2. reflexivity. }
  assert (Hcross : crossesPlane d1 d2 = true).
  { unfold crossesPlane. apply andb_true_iff. split.
    - rewrite leb_spec, mul_spec, H1, H2. reflexivity.
    - rewrite ltb_spec, abs_spec, Hsub.
      rewrite ltb_spec, abs_spec, H2 in Hfar. exact Hfar. }
  assert (Ht : intersectionParameter d1 d2 = 0%float).
  { unfold intersectionParameter. cbv zeta.
    assert (Hq : Prim2SF (d1 / (d1 - d2)) = S754_zero (xorb s1 (negb s2))).
    { rewrite div_spec, H1, Hsub. reflexivity. }
    unfold stdMin.
    assert (Hlt : (d1 / (d1 - d2) <? 1)%float = true).
    { rewrite ltb_spec, Hq. reflexivity. }
    rewrite Hlt. unfold stdMax.
    assert (Hnot : (0 <? d1 / (d1 - d2))%float = false).
    { rewrite ltb_spec, Hq. reflexivity. }
    now rewrite Hnot. }
  rewrite sourcePoints_flat_map, pointsOnEdge_flat_map;
    [| apply seq_NoDup | exact He].
  rewrite emitted_crossing. unfold crossing, crossingPoint. fold d1 d2.
  now rewrite Hcross, Ht.
Qed.

Lemma tail_on_plane_witness :
  pointsOnEdge 4 (sourcePoints Cases.groundedSquare) = [EdgePoint 4 0%float].
Proof.
  apply (tail_on_plane Cases.groundedSquare 4).
  - simpl. auto 6.
  - reflexivity.
  - reflexivity.
  - reflexivity.
Defined.

Lemma div_eucl_shift (m : positive) :
  Z.div_eucl (Z.shiftl (Zpos m) 53) (Zpos m) = ((2 ^ 53)%Z, 0%Z).
Proof.
  rewrite Z.shiftl_mul_pow2 by discriminate.
  pose proof (Z_div_mod (Zpos m * 2 ^ 53) (Zpos m) eq_refl) as H.
  destruct (Z.div_eucl (Zpos m * 2 ^ 53) (Zpos m)) as [q r].
  destruct H as [Heq Hr].
  assert (Hq : q = (2 ^ 53)%Z /\ r = 0%Z).
  { apply (Z.div_mod_unique (Zpos m) q (2 ^ 53) r 0); [lia | lia |].
    rewrite <- Heq. ring. }
  destruct Hq as [-> ->]. reflexivity.
Qed.

Lemma div_self (d : float) (s : bool) (m : positive) (e : Z) :
  Prim2SF d = S754_finite s m e -> (d / d)%float = 1%float.
Proof.
  intros H. apply Prim2SF_inj. rewrite div_spec, H.
  unfold SF64div, SFdiv, SFdiv_core_binary.
  rewrite !Z.sub_diag.
  change (Z.min (fexp prec emax 0) 0) with (-53)%Z.
  change (0 - -53)%Z with 53%Z. cbv iota.
  rewrite div_eucl_shift, xorb_nilpotent.
  unfold new_location, new_location_even, new_location_odd.
  destruct (Z.even (Zpos m)); reflexivity.
Qed.

(** X5: When the tip of an edge lies exactly on the plane and its tail is a
    finite distance away, beyond the tolerance, the edge crosses and its
    source sits at parameter 1, on the tip vertex itself. *)
Theorem tip_on_plane (p : Program) (e : Edge)
    (He : In e (edges (mesh p)))
    (Htip : (planeDistance p (tipVertex (mesh p) e) =? 0)%float = true)
    (Hfinite : isFinite (planeDistance p (tailVertex (mesh p) e)) = true)
    (Hfar : (1e-10 <? abs (planeDistance p (tailVertex (mesh p) e)))%float
            = true) :
  pointsOnEdge e (sourcePoints p) = [EdgePoint e 1%float].
Proof.
  set (d1 := planeDistance p (tailVertex (mesh p) e)) in *.
  set (d2 := planeDistance p (tipVertex (mesh p) e)) in *.
  destruct (eqb_zero d2 Htip) as (s2 & H2).
  unfold isFinite in Hfinite.
  destruct (Prim2SF d1) as [s1|s1| |s1 m1 e1] eqn:H1; try discriminate.
  { rewrite ltb_spec, abs_spec, H1 in Hfar. discriminate Hfar. }
  assert (Hsub : (d1 - d2)%float = d1).
  { apply Prim2SF_inj. rewrite sub_spec, H1, H2. reflexivity. }
  assert (Hcross : crossesPlane d1 d2 = true).
  { unfold crossesPlane. apply andb_true_iff. split.
    - rewrite leb_spec, mul_spec, H1, H2. reflexivity.
    - now rewrite Hsub. }
  assert (Ht : intersectionParameter d1 d2 = 1%float).
  { unfold intersectionParameter. cbv zeta.
    rewrite Hsub, (div_self d1 s1 m1 e1 H1). reflexivity. }
  rewrite sourcePoints_flat_map, pointsOnEdge_flat_map;
    [| apply seq_NoDup | exact He].
  rewrite emitted_crossing. unfold crossing, crossingPoint. fold d1 d2.
  now rewrite Hcross, Ht.
Qed.

Lemma tip_on_plane_witness :
  pointsOnEdge 1 (sourcePoints Cases.cappedSquare) = [EdgePoint 1 1%float].
Proof.
  apply (tip_on_plane Cases.cappedSquare 1).
  - simpl. auto.
  - reflexivity.
  - reflexivity.
  - reflexivity.
Defined.

(** ** A successful run of [computeGeodesics] *)

Lemma quantity_added (name : string) (data : list float)
    (qs : list (string * list float)) :
  quantity name (addQuantity name data qs) = Some data.
Proof. unfold quantity, addQuantity. simpl. now rewrite String.eqb_refl. Qed.

Lemma computeGeodesics_run
    (solver : ManifoldSurfaceMesh -> VertexPositionGeometry ->
              list SurfacePoint -> SurfacePoint -> nat * float)
    (w : World) :
  sourcePoints (prog w) <> [] ->
  let p := prog w in
  let distances := map (solved solver p) (vertices (mesh p)) in
  computeGeodesics solver w =
  mkWorld
    (mkProgram (mesh p) (geometry p)
       (psMesh p
        |> addVertexScalarQuantity "geodesic_distance" distances
        |> addEdgeScalarQuantity "source_edges" (snd (findCrossings p)))
       (planeHeight p) (planeThreshold p) (planeNormal p) distances)
    (disk w)
    (trace w ++
     [Cout ("planeHeight: " ++ fmtGeneral 6 (planeHeight p) ++ newline);
      Propagate (sourcePoints p);
      PsInfo ("Computed geodesic distances from plane with "
                ++ decimal (N.of_nat (List.length (sourcePoints p)))
                ++ " edge intersection points")]).
Proof.
  intros Hne p distances. subst distances p. unfold solved.
  unfold computeGeodesics, sourcePoints in *.
  destruct (findCrossings (prog w)) as [[|s rest] ind];
    [exfalso; now apply Hne|].
  unfold emit. cbn [prog disk trace fst snd].
  rewrite <- !app_assoc. reflexivity.
Qed.

Lemma computeGeodesics_fields
    (solver : ManifoldSurfaceMesh -> VertexPositionGeometry ->
              list SurfacePoint -> SurfacePoint -> nat * float)
    (w : World) :
  sourcePoints (prog w) <> [] ->
  let p := prog w in
  let w' := computeGeodesics solver w in
  List.length (currentGeodesicDistances (prog w')) = nVertices (mesh p) /\
  (forall v, v < nVertices (mesh p) ->
     nth_error (currentGeodesicDistances (prog w')) v
     = Some (solved solver p v)) /\
  mesh (prog w') = mesh p /\ geometry (prog w') = geometry p /\
  disk w' = disk w.
Proof.
  intros Hne p w'. subst w'.
  rewrite (computeGeodesics_run solver w Hne). fold p.
  cbn [prog disk currentGeodesicDistances mesh geometry].
  split; [unfold vertices; now rewrite length_map, length_seq|].
  split; [|repeat split].
  intros v Hv. unfold vertices.
  rewrite nth_error_map, nth_error_seq.
  apply Nat.ltb_lt in Hv. now rewrite Hv.
Qed.

(** X6: When at least one edge crosses the plane, [computeGeodesics] stores
    one distance per vertex, the solver's answer at that vertex for the
    extracted sources; the field shown as "geodesic_distance" is the
    stored one and "source_edges" shows the edge flags; mesh, geometry,
    plane and disk are unchanged; the solver is run once and the final
    message counts the sources. *)
Theorem computeGeodesics_success
    (solver : ManifoldSurfaceMesh -> VertexPositionGeometry ->
              list SurfacePoint -> SurfacePoint -> nat * float)
    (w : World) (Hne : sourcePoints (prog w) <> []) :
  let p := prog w in
  let w' := computeGeodesics solver w in
  let p' := prog w' in
  List.length (currentGeodesicDistances p') = nVertices (mesh p) /\
  (forall v, v < nVertices (mesh p) ->
     nth_error (currentGeodesicDistances p') v = Some (solved solver p v)) /\
  quantity "geodesic_distance" (vertexScalars (psMesh p'))
    = Some (currentGeodesicDistances p') /\
  quantity "source_edges" (edgeScalars (psMesh p'))
    = Some (map (fun e => if crossing p e then 1%float else 0%float)
                (edges (mesh p))) /\
  (mesh p' = mesh p /\ geometry p' = geometry p /\
   planeNormal p' = planeNormal p /\ planeHeight p' = planeHeight p /\
   planeThreshold p' = planeThreshold p) /\
  disk w' = disk w /\
  trace w' = trace w ++
    [Cout ("planeHeight: " ++ fmtGeneral 6 (planeHeight p) ++ newline);
     Propagate (sourcePoints p);
     PsInfo ("Computed geodesic distances from plane with "
               ++ decimal (N.of_nat (List.length
                    (filter (crossing p) (edges (mesh p)))))
               ++ " edge intersection points")].
Proof.
  intros p w' p'. subst p' w'.
  rewrite (computeGeodesics_run solver w Hne). fold p.
  cbn [prog disk trace currentGeodesicDistances psMesh mesh geometry
       planeNormal planeHeight planeThreshold].
  split; [unfold vertices; now rewrite length_map, length_seq|].
  split.
  { intros v Hv. unfold vertices.
    rewrite nth_error_map, nth_error_seq.
    apply Nat.ltb_lt in Hv. now rewrite Hv. }
  split; [apply quantity_added|].
  split.
  { unfold addEdgeScalarQuantity. cbn [edgeScalars].
    rewrite quantity_added. f_equal. apply indicator_map. }
  split; [repeat split|]. split; [reflexivity|].
  rewrite (sourcePoints_map p) at 2. now rewrite length_map.
Qed.

Lemma computeGeodesics_success_witness :
  currentGeodesicDistances
    (prog (computeGeodesics Cases.heightSolver Cases.slicedWorld))
  = [0.5; 0.5; 0.5; 0.5]%float.
Proof.
  destruct (computeGeodesics_success Cases.heightSolver Cases.slicedWorld)
    as (Hlen & Hnth & _).
  - discriminate.
  - cbv zeta in Hlen, Hnth.
    destruct (currentGeodesicDistances
                (prog (computeGeodesics Cases.heightSolver Cases.slicedWorld)))
      as [|a [|b [|c [|d [|? ?]]]]]; try discriminate Hlen.
    pose proof (Hnth 0 ltac:(simpl; lia)) as H0.
    pose proof (Hnth 1 ltac:(simpl; lia)) as H1.
    pose proof (Hnth 2 ltac:(simpl; lia)) as H2.
    pose proof (Hnth 3 ltac:(simpl; lia)) as H3.
    simpl in H0, H1, H2, H3.
    injection H0 as ->. injection H1 as ->.
    injection H2 as ->. injection H3 as ->.
    reflexivity.
Defined.

(** ** The thickness parameter *)

Lemma findCrossings_threshold (th : float) (w : World) :
  findCrossings (prog (setPlaneThreshold th w)) = findCrossings (prog w).
Proof.
  apply findCrossings_sameSurface. unfold sameSurface. repeat split.
Qed.

(** X7: [planeThreshold], the value behind the "Plane Thickness" slider, is
    never read: changing it before [computeGeodesics] or before
    [exportGeodesicDistances] gives the world that changing it after
    would give. *)
Theorem threshold_unused
    (solver : ManifoldSurfaceMesh -> VertexPositionGeometry ->
              list SurfacePoint -> SurfacePoint -> nat * float)
    (th : float) (filename : string) (w : World) :
  computeGeodesics solver (setPlaneThreshold th w) =
    setPlaneThreshold th (computeGeodesics solver w) /\
  exportGeodesicDistances filename (setPlaneThreshold th w) =
    setPlaneThreshold th (exportGeodesicDistances filename w).
Proof.
  split.
  - unfold computeGeodesics.
    rewrite (findCrossings_threshold th w).
    destruct (findCrossings (prog w)) as [[|s rest] ind]; reflexivity.
  - unfold exportGeodesicDistances.
    change (currentGeodesicDistances (prog (setPlaneThreshold th w)))
      with (currentGeodesicDistances (prog w)).
    change (disk (setPlaneThreshold th w)) with (disk w).
    destruct (Nat.eqb _ 0); [reflexivity|].
    destruct (negb (canOpen (disk w) filename)); [reflexivity|].
    assert (Htext : exportText (prog (setPlaneThreshold th w))
                    = exportText (prog w)).
    { apply exportText_sameField. unfold sameField. repeat split. }
    unfold emit. rewrite Htext. reflexivity.
Qed.

(** ** Running [computeGeodesics] again *)

Lemma addQuantity_twice (name : string) (d : list float)
    (qs : list (string * list float)) :
  addQuantity name d (addQuantity name d qs) = addQuantity name d qs.
Proof.
  unfold addQuantity. cbn [filter fst].
  rewrite String.eqb_refl. cbn [negb]. f_equal.
  induction qs as [|q qs IH]; [reflexivity|].
  cbn [filter]. destruct (negb (String.eqb (fst q) name)) eqn:Hq.
  - cbn [filter]. now rewrite Hq, IH.
  - exact IH.
Qed.

(** X8: Running [computeGeodesics] a second time without touching the
    parameters leaves the globals as the first run left them: the stored
    field, the displayed quantities and the plane are the same. *)
Theorem computeGeodesics_again
    (solver : ManifoldSurfaceMesh -> VertexPositionGeometry ->
              list SurfacePoint -> SurfacePoint -> nat * float)
    (w : World) :
  prog (computeGeodesics solver (computeGeodesics solver w)) =
  prog (computeGeodesics solver w).
Proof.
  destruct (sourcePoints (prog w)) as [|s0 rest0] eqn:Hsrc.
  - assert (Hsame : prog (computeGeodesics solver w) = prog w).
    { unfold computeGeodesics. unfold sourcePoints in Hsrc.
      destruct (findCrossings (prog w)) as [srcs ind].
      simpl in Hsrc. subst srcs. reflexivity. }
    unfold computeGeodesics at 1. rewrite Hsame.
    unfold sourcePoints in Hsrc.
    destruct (findCrossings (prog w)) as [srcs ind].
    simpl in Hsrc. subst srcs. cbn [emit prog]. exact Hsame.
  - assert (Hne : sourcePoints (prog w) <> []) by (rewrite Hsrc; discriminate).
    pose proof (computeGeodesics_run solver w Hne) as Hrun. cbv zeta in Hrun.
    set (w1 := computeGeodesics solver w) in *. clearbody w1.
    assert (Hsurf : sameSurface (prog w1) (prog w)).
    { rewrite Hrun. unfold sameSurface. repeat split. }
    assert (Hfc : findCrossings (prog w1) = findCrossings (prog w))
      by (now apply findCrossings_sameSurface).
    assert (Hsp : sourcePoints (prog w1) = sourcePoints (prog w))
      by (unfold sourcePoints; now rewrite Hfc).
    assert (Hne1 : sourcePoints (prog w1) <> []) by (now rewrite Hsp).
    rewrite (computeGeodesics_run solver w1 Hne1). cbn [prog].
    assert (Hsolved : forall v, solved solver (prog w1) v
                                = solved solver (prog w) v).
    { intros v. unfold solved. rewrite Hsp.
      destruct Hsurf as (-> & -> & _). reflexivity. }
    rewrite (map_ext _ _ Hsolved), Hfc.
    destruct Hsurf as (Hm & Hg & Hn & Hh). rewrite Hm, Hg, Hn, Hh.
    rewrite Hrun. cbn [prog psMesh planeThreshold].
    unfold addVertexScalarQuantity, addEdgeScalarQuantity.
    cbn [vertexScalars edgeScalars].
    now rewrite !addQuantity_twice.
Qed.

(** ** What the export touches *)

(** X9: When distances are stored but the file cannot be opened,
    [exportGeodesicDistances] raises the error naming the file and
    nothing else happens: every file, the one named included, keeps its
    text, and the globals are unchanged. *)
Theorem export_open_failure (filename : string) (w : World)
    (Hcomputed : currentGeodesicDistances (prog w) <> [])
    (Hclosed : canOpen (disk w) filename = false) :
  exportGeodesicDistances filename w =
  mkWorld (prog w) (disk w)
    (trace w ++ [PsError ("Failed to open file for writing: " ++ filename)]).
Proof.
  unfold exportGeodesicDistances.
  destruct (currentGeodesicDistances (prog w)); [congruence|].
  simpl. rewrite Hclosed. reflexivity.
Qed.

Lemma export_open_failure_witness :
  fileText (disk (exportGeodesicDistances "geodesic_distances.txt"
                    (mkWorld Scenario.computedSquare Cases.readOnlyDisk [])))
           "geodesic_distances.txt" = Some "old".
Proof.
  rewrite (export_open_failure "geodesic_distances.txt"
             (mkWorld Scenario.computedSquare Cases.readOnlyDisk [])).
  - reflexivity.
  - discriminate.
  - reflexivity.
Defined.

(** X10: Whatever happens, [exportGeodesicDistances] returns the globals
    unchanged, leaves every file other than the one named as it was,
    does not change which files can be opened, and adds exactly one
    event, a warning, an error or the final message. *)
Theorem export_frame (filename : string) (w : World) :
  let w' := exportGeodesicDistances filename w in
  prog w' = prog w /\
  canOpen (disk w') = canOpen (disk w) /\
  (forall other, other <> filename ->
     fileText (disk w') other = fileText (disk w) other) /\
  exists ev, trace w' = trace w ++ [ev] /\
    match ev with
    | PsWarning _ | PsError _ => disk w' = disk w
    | PsInfo _ =>
        fileText (disk w') filename = Some (exportText (prog w))
    | _ => False
    end.
Proof.
  unfold exportGeodesicDistances.
  destruct (Nat.eqb _ 0).
  - repeat split; try reflexivity. eexists. split; reflexivity.
  - destruct (negb (canOpen (disk w) filename)).
    + repeat split; try reflexivity. eexists. split; reflexivity.
    + cbn [emit prog disk trace]. split; [reflexivity|].
      split; [reflexivity|]. split.
      * intros other Hother. cbn [writeFile fileText].
        apply String.eqb_neq in Hother. now rewrite Hother.
      * eexists. split; [reflexivity|]. apply writeFile_read.
Qed.

(** ** From the solver to the file *)

Lemma Forall2_impl {A B : Type} (P Q : A -> B -> Prop)
    (l : list A) (l' : list B) :
  (forall a b, In a l -> P a b -> Q a b) ->
  Forall2 P l l' -> Forall2 Q l l'.
Proof.
  intros H HF. induction HF as [|a b l l' Hab _ IH]; constructor.
  - apply H; [now left | exact Hab].
  - apply IH. intros a' b' Hin. apply H. now right.
Qed.

(** X11: Computing and then exporting: when the mesh has a vertex, some
    edge crosses the plane, the file opens, and the vertex positions and
    the solver's answers are finite, the written file parses into one
    row per vertex, in vertex order, whose distance is within [1e-9] of
    the solver's answer at that vertex and whose coordinates are within
    [1e-9] of the vertex position. *)
Theorem compute_then_export
    (solver : ManifoldSurfaceMesh -> VertexPositionGeometry ->
              list SurfacePoint -> SurfacePoint -> nat * float)
    (filename : string) (w : World)
    (Hverts : 0 < nVertices (mesh (prog w)))
    (Hne : sourcePoints (prog w) <> [])
    (Hopen : canOpen (disk w) filename = true)
    (Hfinite : forall v, v < nVertices (mesh (prog w)) ->
       finite3 (position (geometry (prog w)) v) = true /\
       isFinite (solved solver (prog w) v) = true) :
  let w' := exportGeodesicDistances filename (computeGeodesics solver w) in
  exists (text : string) (rows : list VertexRow),
    fileText (disk w') filename = Some text /\
    parseFile text = Some rows /\
    Forall2 (fun v row =>
               rowIndex row = N.of_nat v /\
               within (1 # 10 ^ 9) (rowX row)
                      (realValue (x (position (geometry (prog w)) v))) /\
               within (1 # 10 ^ 9) (rowY row)
                      (realValue (y (position (geometry (prog w)) v))) /\
               within (1 # 10 ^ 9) (rowZ row)
                      (realValue (z (position (geometry (prog w)) v))) /\
               within (1 # 10 ^ 9) (rowDistance row)
                      (realValue (solved solver (prog w) v)))
            (vertices (mesh (prog w))) rows.
Proof.
  intros w'. subst w'.
  destruct (computeGeodesics_fields solver w Hne)
    as (Hlen & Hnth & Hm & Hg & Hdisk).
  cbv zeta in Hlen, Hnth.
  set (w1 := computeGeodesics solver w) in *. clearbody w1.
  assert (Hstored : forall v, v < nVertices (mesh (prog w)) ->
            nth v (currentGeodesicDistances (prog w1)) 0%float
            = solved solver (prog w) v).
  { intros v Hv. apply nth_error_nth. now apply Hnth. }
  assert (Hfin1 : forall v, In v (vertices (mesh (prog w1))) ->
            finiteVertex (prog w1) v = true).
  { intros v Hv. rewrite Hm in Hv. unfold vertices in Hv.
    apply in_seq in Hv. destruct Hv as [_ Hv]. cbn [Nat.add] in Hv.
    unfold finiteVertex. rewrite Hg, (Hstored v Hv).
    destruct (Hfinite v Hv) as [Ha Hb]. now rewrite Ha, Hb. }
  destruct (parseFile_exportText (prog w1) Hfin1) as (rows & Hparse & Hrows).
  exists (exportText (prog w1)), rows. split; [|split; [exact Hparse|]].
  - rewrite export_writes; [apply writeFile_read | | now rewrite Hdisk].
    intros Hnil. rewrite Hnil in Hlen. simpl in Hlen. lia.
  - rewrite Hm in Hrows. eapply Forall2_impl; [|exact Hrows].
    intros v row Hv (Hi & Hx & Hy & Hz & Hd).
    unfold vertices in Hv. apply in_seq in Hv. destruct Hv as [_ Hv].
    cbn [Nat.add] in Hv.
    rewrite Hg in Hx, Hy, Hz. rewrite (Hstored v Hv) in Hd.
    repeat split; assumption.
Qed.

Lemma compute_then_export_witness :
  exists (text : string) (rows : list VertexRow),
    fileText (disk (exportGeodesicDistances "out.txt"
                      (computeGeodesics Cases.heightSolver Cases.slicedWorld)))
             "out.txt" = Some text /\
    parseFile text = Some rows /\
    List.length rows = 4.
Proof.
  destruct (compute_then_export Cases.heightSolver "out.txt"
              Cases.slicedWorld) as (text & rows & Hfile & Hparse & Hrows).
  - simpl. lia.
  - discriminate.
  - reflexivity.
  - intros v Hv. simpl in Hv.
    destruct v as [|[|[|[|v]]]]; try lia; split; reflexivity.
  - exists text, rows. split; [exact Hfile|]. split; [exact Hparse|].
    apply Forall2_length in Hrows. now rewrite <- Hrows.
Defined.

(** ** Invariants of a session *)

Section Session.

Variable solver :
  ManifoldSurfaceMesh -> VertexPositionGeometry ->
  list SurfacePoint -> SurfacePoint -> nat * float.
Variable normalizer : Vector3 -> Vector3.

Lemma preserved_refl (w : World) : preserved w w.
Proof. unfold preserved. auto. Qed.

Lemma preserved_trans (w1 w2 w3 : World) :
  preserved w1 w2 -> preserved w2 w3 -> preserved w1 w3.
Proof.
  unfold preserved. intros (Hm & Hg & Hs) (Hm' & Hg' & Hs').
  repeat split; try congruence. auto.
Qed.

Lemma preserved_same_program (w w' : World) :
  mesh (prog w') = mesh (prog w) ->
  geometry (prog w') = geometry (prog w) ->
  currentGeodesicDistances (prog w') = currentGeodesicDistances (prog w) ->
  preserved w w'.
Proof.
  intros Hm Hg Hd. unfold preserved, wellSized.
  rewrite Hm, Hd. auto.
Qed.

Lemma computeGeodesics_preserved (w : World) :
  preserved w (computeGeodesics solver w).
Proof.
  destruct (sourcePoints (prog w)) as [|s0 rest] eqn:Hsrc.
  - apply preserved_same_program;
      unfold computeGeodesics; unfold sourcePoints in Hsrc;
      destruct (findCrossings (prog w)) as [srcs ind];
      simpl in Hsrc; subst srcs; reflexivity.
  - assert (Hne : sourcePoints (prog w) <> []) by (rewrite Hsrc; discriminate).
    destruct (computeGeodesics_fields solver w Hne)
      as (Hlen & _ & Hm & Hg & _).
    cbv zeta in Hlen. unfold preserved, wellSized.
    rewrite Hm. auto.
Qed.

Lemma export_preserved (filename : string) (w : World) :
  preserved w (exportGeodesicDistances filename w).
Proof.
  assert (Hp : prog (exportGeodesicDistances filename w) = prog w).
  { unfold exportGeodesicDistances.
    destruct (Nat.eqb _ 0); [reflexivity|].
    destruct (negb (canOpen (disk w) filename)); reflexivity. }
  apply preserved_same_program; now rewrite Hp.
Qed.

Lemma presetButton_preserved (pressed : bool) (n : Vector3) (w : World) :
  preserved w (presetButton solver pressed n w).
Proof.
  unfold presetButton. destruct pressed; [|apply preserved_refl].
  eapply preserved_trans; [|apply computeGeodesics_preserved].
  now apply preserved_same_program.
Qed.

Lemma myCallback_preserved (f : Frame) (s : Session) :
  preserved (world s) (world (myCallback solver normalizer f s)).
Proof.
  unfold myCallback. cbn [world].
  repeat match goal with
  | |- preserved _ (if ?b then exportGeodesicDistances ?n ?w else ?w) =>
      apply (preserved_trans _ w);
        [|destruct b; [apply export_preserved | apply preserved_refl]]
  | |- preserved _ (presetButton _ ?b ?n ?w) =>
      apply (preserved_trans _ w); [|apply presetButton_preserved]
  | |- preserved _ (if ?b then computeGeodesics _ ?w else ?w) =>
      apply (preserved_trans _ w);
        [|destruct b; [apply computeGeodesics_preserved | apply preserved_refl]]
  end.
  destruct (normalInput f) as [[[a b] c]|], (heightInput f), (thicknessInput f);
    now apply preserved_same_program.
Qed.

Lemma show_preserved (frames : list Frame) (s : Session) :
  preserved (world s) (world (show solver normalizer frames s)).
Proof.
  revert s. induction frames as [|f frames IH]; intros s.
  - apply preserved_refl.
  - cbn [show fold_left].
    eapply preserved_trans; [apply myCallback_preserved|].
    apply IH.
Qed.

End Session.

(** X12: Through any sequence of callback frames the mesh and the geometry
    stay those the session started with, and the stored distances stay
    absent or one per vertex; so whenever distances are stored, every
    vertex the export visits has one. *)
Theorem session_invariant
    (solver : ManifoldSurfaceMesh -> VertexPositionGeometry ->
              list SurfacePoint -> SurfacePoint -> nat * float)
    (normalizer : Vector3 -> Vector3)
    (frames : list Frame) (s : Session)
    (Hsized : wellSized (prog (world s))) :
  let p := prog (world s) in
  let p' := prog (world (show solver normalizer frames s)) in
  mesh p' = mesh p /\ geometry p' = geometry p /\
  wellSized p' /\
  (currentGeodesicDistances p' <> [] ->
   forall v, In v (vertices (mesh p')) ->
     exists d, nth_error (currentGeodesicDistances p') v = Some d).
Proof.
  intros p p'.
  destruct (show_preserved solver normalizer frames s) as (Hm & Hg & Hs).
  fold p p' in Hm, Hg, Hs. specialize (Hs Hsized).
  repeat split; try assumption.
  intros Hne v Hv. destruct Hs as [Hnil|Hlen]; [congruence|].
  unfold vertices in Hv. apply in_seq in Hv.
  destruct (nth_error (currentGeodesicDistances p') v) as [d|] eqn:Hd;
    [now exists d|].
  apply nth_error_None in Hd. lia.
Qed.

Lemma session_invariant_witness :
  wellSized
    (prog (world (show Cases.heightSolver Cases.identityNormalize
                    [Cases.moveHeight 0.5; Cases.pressCompute;
                     Cases.pressExport]
                    (mkSession (mkWorld Scenario.loadedSquare
                                        Scenario.emptyDisk [])
                               "geodesic_distances.txt")))).
Proof.
  apply (session_invariant Cases.heightSolver Cases.identityNormalize
           [Cases.moveHeight 0.5; Cases.pressCompute; Cases.pressExport]
           (mkSession (mkWorld Scenario.loadedSquare Scenario.emptyDisk [])
                      "geodesic_distances.txt")).
  left. reflexivity.
Defined.

(** X13: When [main] runs to the end, a mesh was read, from the path given
    on the command line or from "bunny.obj" when none was given; the
    session ends on that mesh and geometry, with the stored distances
    absent or one per vertex. *)
Theorem main_finished
    (solver : ManifoldSurfaceMesh -> VertexPositionGeometry ->
              list SurfacePoint -> SurfacePoint -> nat * float)
    (normalizer : Vector3 -> Vector3)
    (reader : string -> option (ManifoldSurfaceMesh * VertexPositionGeometry))
    (usage : string) (startDisk : FileSystem)
    (cli : CommandLine) (frames : list Frame) (s : Session)
    (Hrun : main solver normalizer reader usage startDisk cli frames
            = Finished s) :
  exists inputFilename m g,
    cli = CliParsed inputFilename /\
    reader (match inputFilename with
            | Some path => path
            | None => "bunny.obj"
            end) = Some (m, g) /\
    mesh (prog (world s)) = m /\ geometry (prog (world s)) = g /\
    wellSized (prog (world s)).
Proof.
  unfold main in Hrun.
  destruct cli as [| what | inputFilename]; try discriminate.
  exists inputFilename.
  set (path := match inputFilename with
               | Some path => path
               | None => "bunny.obj"
               end).
  set (out := match inputFilename with
              | Some _ => []
              | None => [Cout ("No mesh file specified, loading default: "
                                 ++ "bunny.obj" ++ newline)]
              end).
  assert (Hpair : (let (meshPath, out0) :=
                     match inputFilename with
                     | Some path0 => (path0, [])
                     | None => ("bunny.obj",
                         [Cout ("No mesh file specified, loading default: "
                                  ++ "bunny.obj" ++ newline)])
                     end in
                   match reader meshPath with
                   | Some (m, g) =>
                       Finished
                         (show solver normalizer frames
                            (mkSession
                               (computeGeodesics solver
                                  (mkWorld (initialProgram m g) startDisk out0))
                               "geodesic_distances.txt"))
                   | None => LoadFailed out0
                   end) =
                  match reader path with
                  | Some (m, g) =>
                      Finished
                        (show solver normalizer frames
                           (mkSession
                              (computeGeodesics solver
                                 (mkWorld (initialProgram m g) startDisk out))
                              "geodesic_distances.txt"))
                  | None => LoadFailed out
                  end).
  { subst path out. destruct inputFilename; reflexivity. }
  rewrite Hpair in Hrun. clear Hpair.
  destruct (reader path) as [[m g]|]; [|discriminate].
  exists m, g. split; [reflexivity|]. split; [reflexivity|].
  injection Hrun as <-.
  set (w0 := mkWorld (initialProgram m g) startDisk out).
  set (s0 := mkSession (computeGeodesics solver w0) "geodesic_distances.txt").
  destruct (show_preserved solver normalizer frames s0) as (Hm & Hg & Hs).
  destruct (computeGeodesics_preserved solver w0) as (Hm0 & Hg0 & Hs0).
  subst s0. cbn [world] in *.
  rewrite Hm, Hm0, Hg, Hg0. repeat split.
  apply Hs, Hs0. left. reflexivity.
Qed.

Lemma main_finished_witness :
  exists s,
    main Cases.heightSolver Cases.identityNormalize Cases.squareReader
         "usage" Scenario.emptyDisk (CliParsed (Some "square.obj"))
         [Cases.pressCompute] = Finished s /\
    wellSized (prog (world s)).
Proof.
  set (s0 := show Cases.heightSolver Cases.identityNormalize
               [Cases.pressCompute]
               (mkSession
                  (computeGeodesics Cases.heightSolver
                     (mkWorld (initialProgram
                                 (Scenario.unitSquare false false false false
                                                      false false)
                                 Scenario.unitSquareGeometry)
                              Scenario.emptyDisk []))
                  "geodesic_distances.txt")).
  exists s0. split; [reflexivity|].
  destruct (main_finished Cases.heightSolver Cases.identityNormalize
              Cases.squareReader "usage" Scenario.emptyDisk
              (CliParsed (Some "square.obj")) [Cases.pressCompute] s0
              eq_refl) as (i & m & g & _ & _ & _ & _ & Hsized).
  exact Hsized.
Defined.

(** ** Exporting after the plane was moved *)

(** X14: The header of the export shows the plane as it is now, not as it
    was when the distances were computed: after the height slider is
    moved to [h] and, with no new computation, "Export" is pressed, the
    file carries the plane height [h] over the vertex lines of the old
    distances. *)
Theorem export_after_height_change
    (solver : ManifoldSurfaceMesh -> VertexPositionGeometry ->
              list SurfacePoint -> SurfacePoint -> nat * float)
    (normalizer : Vector3 -> Vector3)
    (h : float) (s : Session)
    (Hcomputed : currentGeodesicDistances (prog (world s)) <> [])
    (Hopen : canOpen (disk (world s)) (exportFilename s) = true) :
  let p := prog (world s) in
  let s' := show solver normalizer [Cases.moveHeight h; Cases.pressExport] s in
  currentGeodesicDistances (prog (world s')) = currentGeodesicDistances p /\
  planeHeight (prog (world s')) = h /\
  exists text,
    fileText (disk (world s')) (exportFilename s) = Some text /\
    nth 2 (splitOn (ascii_of_nat 10) text) ""
      = ("# Plane height: " ++ fmtGeneral 6 h)%string /\
    skipn 7 (splitOn (ascii_of_nat 10) text)
      = map (vertexLine p) (vertices (mesh p)) ++ [""].
Proof.
  intros p s'.
  set (w1 := setPlaneHeight h (world s)).
  assert (Hs' : s' = mkSession (exportGeodesicDistances (exportFilename s) w1)
                               (exportFilename s)).
  { reflexivity. }
  assert (Hc1 : currentGeodesicDistances (prog w1) <> []) by exact Hcomputed.
  assert (Ho1 : canOpen (disk w1) (exportFilename s) = true) by exact Hopen.
  rewrite Hs'. cbn [world].
  rewrite (export_writes (exportFilename s) w1 Hc1 Ho1). cbn [prog disk].
  split; [reflexivity|]. split; [reflexivity|].
  exists (exportText (prog w1)).
  split; [apply writeFile_read|].
  rewrite exportText_layout, layout_lines.
  split; reflexivity.
Qed.

Lemma export_after_height_change_witness :
  exists text,
    fileText
      (disk (world (show Cases.heightSolver Cases.identityNormalize
                      [Cases.moveHeight 0.25; Cases.pressExport]
                      (mkSession Scenario.squareWorld "out.txt"))))
      "out.txt" = Some text /\
    nth 2 (splitOn (ascii_of_nat 10) text) "" = "# Plane height: 0.25".
Proof.
  destruct (export_after_height_change Cases.heightSolver
              Cases.identityNormalize 0.25
              (mkSession Scenario.squareWorld "out.txt"))
    as (_ & _ & text & Hfile & Hline & _).
  - discriminate.
  - reflexivity.
  - exists text. split; [exact Hfile|]. rewrite Hline. reflexivity.
Defined.

(** ** Frames without a button press *)

(** X15: A frame in which no button is pressed, whatever is typed or
    dragged, runs no computation and no export: the stored distances,
    the displayed quantities, the disk and the trace stay as they were;
    only the plane parameters and the file name buffer can change. *)
Theorem edits_only
    (solver : ManifoldSurfaceMesh -> VertexPositionGeometry ->
              list SurfacePoint -> SurfacePoint -> nat * float)
    (normalizer : Vector3 -> Vector3)
    (f : Frame) (s : Session)
    (Hno : computePressed f = false /\ xyPressed f = false /\
           xzPressed f = false /\ yzPressed f = false /\
           exportPressed f = false) :
  let w := world s in
  let w' := world (myCallback solver normalizer f s) in
  currentGeodesicDistances (prog w') = currentGeodesicDistances (prog w) /\
  psMesh (prog w') = psMesh (prog w) /\
  mesh (prog w') = mesh (prog w) /\ geometry (prog w') = geometry (prog w) /\
  disk w' = disk w /\ trace w' = trace w /\
  planeNormal (prog w') =
    match normalInput f with
    | Some (a, b, c) => normalizer (mkVector3 a b c)
    | None => planeNormal (prog w)
    end /\
  planeHeight (prog w') =
    match heightInput f with
    | Some h => h
    | None => planeHeight (prog w)
    end.
Proof.
  destruct Hno as (Hc & Hxy & Hxz & Hyz & He).
  unfold myCallback, presetButton. rewrite Hc, Hxy, Hxz, Hyz, He.
  cbn [world].
  destruct (normalInput f) as [[[a b] c]|], (heightInput f),
           (thicknessInput f); repeat split.
Qed.

Lemma edits_only_witness :
  trace (world (myCallback Cases.heightSolver Cases.identityNormalize
                  (Cases.moveHeight 0.25)
                  (mkSession Scenario.squareWorld "out.txt")))
  = [].
Proof.
  destruct (edits_only Cases.heightSolver Cases.identityNormalize
              (Cases.moveHeight 0.25)
              (mkSession Scenario.squareWorld "out.txt"))
    as (_ & _ & _ & _ & _ & Htrace & _).
  - repeat split.
  - exact Htrace.
Defined.
